(** * Cursor pagination utilities: a shallow embedding of
    [src/utils/cursor-pagination.js] and the properties of its four exported
    functions.

    The file is organised as follows.
    - [Js]: the fragment of JavaScript values and primitive operations the
      module relies on (property reads, [Object.keys], [Object.values],
      [typeof], truthiness, object literals with computed keys).
    - [Runtime]: the interface of the host functions the module calls
      ([JSON.stringify], [JSON.parse], [Buffer], [Date]).
    - the four functions of the module, written against that interface.
    - [Node]: an executable instance of the interface ([Base64],
      [IsoDate], [Json] and the UTF-8 decoder of [Utf8]).
    - the vocabulary of the statements.
    - the properties of [buildCursorWhere] ([Where]), of [orderByToSort]
      ([Sort]) and of [parseContinuationToken] on every host ([Token]).
    - the properties of the instance, and the round trip of a token
      through [createContinuationToken] and [parseContinuationToken] on it
      ([RoundTrip]).
    - further properties of the four functions: what the token codec
      accepts and refuses on every host ([TokenEdges]), the sort extraction
      on entries of any shape ([SortEdges]), the failures and the operators
      of the filter ([WhereEdges]), and the tokens of the instance
      ([TokenText], [NodeTokens]). *)

From Stdlib Require Import ZArith NArith List String Ascii Bool Lia.
From Stdlib Require Import DecimalString DecimalN DecimalZ DecimalFacts DecimalPos.
Import ListNotations.
Open Scope string_scope.

(* ================================================================== *)
(** * Completions: a value, or a thrown exception *)

(** The exceptions that can be raised while the module runs.  [TypeError]
    and [SyntaxError] come from the host; [Error] is the plain error thrown
    on line 46; [BadRequestError] is the class imported from
    [../errors/customErrors.js], of which only the constructor call
    [new BadRequestError(message)] is used. *)
Inductive exn : Type :=
| TypeError
| SyntaxError
| Error (message : string)
| BadRequestError (message : string).

Inductive result (A : Type) : Type :=
| Ok (a : A)
| Throw (e : exn).
Arguments Ok {A} a.
Arguments Throw {A} e.

Definition bind {A B : Type} (m : result A) (k : A -> result B) : result B :=
  match m with
  | Ok a => k a
  | Throw e => Throw e
  end.

Notation "x <- m ;; k" := (bind m (fun x => k))
  (at level 61, m at next level, right associativity).

(* ================================================================== *)
(** * Strings

    A JavaScript string is a sequence of 16-bit code units.  It is
    represented here by the bytes of its UTF-8 form (a surrogate that has no
    partner takes the three bytes the same scheme gives it), so that a
    string literal of the source is the same literal here. *)

Module Utf8.
Local Open Scope N_scope.

Definition code (c : ascii) : N := N_of_ascii c.

Definition between (lo hi : N) (c : ascii) : bool :=
  N.leb lo (code c) && N.leb (code c) hi.

Definition continuation : ascii -> bool := between 128 191.

Definition ascii7 (c : ascii) : bool := N.ltb (code c) 128.

(** What a byte above 127 announces when it starts a well-formed sequence:
    the length of the sequence and the range of its second byte. *)
Inductive lead : Type :=
| Lead2
| Lead3 (lo hi : N)
| Lead4 (lo hi : N).

Definition lead_of (c : ascii) : option lead :=
  if between 194 223 c then Some Lead2
  else if between 224 224 c then Some (Lead3 160 191)
  else if between 225 236 c then Some (Lead3 128 191)
  else if between 237 237 c then Some (Lead3 128 159)
  else if between 238 239 c then Some (Lead3 128 191)
  else if between 240 240 c then Some (Lead4 144 191)
  else if between 241 243 c then Some (Lead4 128 191)
  else if between 244 244 c then Some (Lead4 128 143)
  else None.

(** U+FFFD, the replacement character. *)
Definition replacement : string :=
  String (ascii_of_N 239) (String (ascii_of_N 191) (String (ascii_of_N 189) "")).

(** Decoding bytes as UTF-8 text: every maximal ill-formed run of bytes is
    replaced by U+FFFD; well-formed sequences are kept. *)
Fixpoint decode (s : string) : string :=
  match s with
  | "" => ""
  | String c1 s1 =>
      if ascii7 c1 then String c1 (decode s1)
      else
        match lead_of c1 with
        | None => replacement ++ decode s1
        | Some Lead2 =>
            match s1 with
            | String c2 s2 =>
                if continuation c2 then String c1 (String c2 (decode s2))
                else replacement ++ decode s1
            | "" => replacement
            end
        | Some (Lead3 lo hi) =>
            match s1 with
            | String c2 s2 =>
                if between lo hi c2 then
                  match s2 with
                  | String c3 s3 =>
                      if continuation c3
                      then String c1 (String c2 (String c3 (decode s3)))
                      else replacement ++ decode s2
                  | "" => replacement
                  end
                else replacement ++ decode s1
            | "" => replacement
            end
        | Some (Lead4 lo hi) =>
            match s1 with
            | String c2 s2 =>
                if between lo hi c2 then
                  match s2 with
                  | String c3 s3 =>
                      if continuation c3 then
                        match s3 with
                        | String c4 s4 =>
                            if continuation c4
                            then String c1 (String c2 (String c3
                                   (String c4 (decode s4))))
                            else replacement ++ decode s3
                        | "" => replacement
                        end
                      else replacement ++ decode s2
                  | "" => replacement
                  end
                else replacement ++ decode s1
            | "" => replacement
            end
        end
  end.

(** Well-formed UTF-8, as a test. *)
Fixpoint valid (s : string) : bool :=
  match s with
  | "" => true
  | String c1 s1 =>
      if ascii7 c1 then valid s1
      else
        match lead_of c1 with
        | None => false
        | Some Lead2 =>
            match s1 with
            | String c2 s2 => continuation c2 && valid s2
            | "" => false
            end
        | Some (Lead3 lo hi) =>
            match s1 with
            | String c2 (String c3 s3) =>
                between lo hi c2 && continuation c3 && valid s3
            | _ => false
            end
        | Some (Lead4 lo hi) =>
            match s1 with
            | String c2 (String c3 (String c4 s4)) =>
                between lo hi c2 && continuation c3 && continuation c4
                && valid s4
            | _ => false
            end
        end
  end.

(** The bytes of one code unit [u] (below [65536]). *)
Definition of_unit (u : N) : string :=
  if N.ltb u 128 then String (ascii_of_N u) ""
  else if N.ltb u 2048 then
    String (ascii_of_N (192 + u / 64))
      (String (ascii_of_N (128 + u mod 64)) "")
  else
    String (ascii_of_N (224 + u / 4096))
      (String (ascii_of_N (128 + (u / 64) mod 64))
         (String (ascii_of_N (128 + u mod 64)) "")).

(** The bytes of the code point above U+FFFF that the surrogate pair
    [hi], [lo] stands for. *)
Definition of_pair (hi lo : N) : string :=
  let cp := 65536 + (hi - 55296) * 1024 + (lo - 56320) in
  String (ascii_of_N (240 + cp / 262144))
    (String (ascii_of_N (128 + (cp / 4096) mod 64))
       (String (ascii_of_N (128 + (cp / 64) mod 64))
          (String (ascii_of_N (128 + cp mod 64)) ""))).

Definition is_high_surrogate (u : N) : bool := N.leb 55296 u && N.leb u 56319.
Definition is_low_surrogate (u : N) : bool := N.leb 56320 u && N.leb u 57343.

(** The code units of a string, each as a string of its own. *)
Fixpoint units (s : string) : list string :=
  match s with
  | "" => []
  | String c1 s1 =>
      if N.ltb (code c1) 192 then String c1 "" :: units s1
      else if N.ltb (code c1) 224 then
        match s1 with
        | String c2 s2 => String c1 (String c2 "") :: units s2
        | "" => [String c1 ""]
        end
      else if N.ltb (code c1) 240 then
        match s1 with
        | String c2 (String c3 s3) =>
            String c1 (String c2 (String c3 "")) :: units s3
        | _ => [s]
        end
      else
        match s1 with
        | String c2 (String c3 (String c4 s4)) =>
            let cp := (code c1 mod 8) * 262144 + (code c2 mod 64) * 4096
                      + (code c3 mod 64) * 64 + code c4 mod 64 in
            of_unit (55296 + (cp - 65536) / 1024)
              :: of_unit (56320 + (cp - 65536) mod 1024) :: units s4
        | _ => [s]
        end
  end.

(** Text made of bytes below 128. *)
Fixpoint plain (s : string) : bool :=
  match s with
  | "" => true
  | String c s' => ascii7 c && plain s'
  end.

End Utf8.

(* ================================================================== *)
(** * JavaScript values *)

Module Js.

(** Numbers are the integers (record ids, millisecond time stamps); strings
    are given by their bytes in UTF-8; a [Date] carries its time value, with
    [None] for an invalid date; [VBuiltin] is a built-in function reached
    through a prototype.  The properties of an object are listed in the
    order in which [Object.keys] enumerates them. *)
#[warnings="-register-all"]
Inductive value : Type :=
| VUndefined
| VNull
| VBool (b : bool)
| VNum (n : Z)
| VStr (s : string)
| VDate (t : option Z)
| VBuiltin (name : string)
| VArr (elems : list value)
| VObj (props : list (string * value)).

(** ** Truthiness, [typeof], [Array.isArray] *)

Definition truthy (v : value) : bool :=
  match v with
  | VUndefined | VNull => false
  | VBool b => b
  | VNum n => negb (Z.eqb n 0)
  | VStr s => negb (String.eqb s "")
  | VDate _ | VBuiltin _ | VArr _ | VObj _ => true
  end.

Definition typeof (v : value) : string :=
  match v with
  | VUndefined => "undefined"
  | VBool _ => "boolean"
  | VNum _ => "number"
  | VStr _ => "string"
  | VBuiltin _ => "function"
  | VNull | VDate _ | VArr _ | VObj _ => "object"
  end.

Definition isArray (v : value) : bool :=
  match v with
  | VArr _ => true
  | _ => false
  end.

(** [v === s] for a string literal [s]. *)
Definition strict_equals_string (v : value) (s : string) : bool :=
  match v with
  | VStr t => String.eqb t s
  | _ => false
  end.

(** ** Property keys *)

(** A key is an array index when it is the canonical decimal numeral of an
    integer below [2^32 - 1]. *)
Definition array_index (k : string) : option N :=
  match NilZero.uint_of_string k with
  | Some d =>
      let n := N.of_uint d in
      if String.eqb (NilZero.string_of_uint (N.to_uint n)) k
         && N.ltb n 4294967295
      then Some n else None
  | None => None
  end.

Definition index_key (n : nat) : string :=
  NilZero.string_of_uint (N.to_uint (N.of_nat n)).

(** ** Own properties, in enumeration order

    Array-index keys come first, in ascending numeric order, then the other
    keys in the order of their creation.  Writing to an existing key keeps
    its position. *)

Definition props := list (string * value).

Fixpoint own (ps : props) (k : string) : option value :=
  match ps with
  | [] => None
  | (k', v) :: ps' => if String.eqb k' k then Some v else own ps' k
  end.

Definition goes_before (k k' : string) : bool :=
  match array_index k, array_index k' with
  | Some n, Some n' => N.ltb n n'
  | Some _, None => true
  | None, _ => false
  end.

Fixpoint define (ps : props) (k : string) (v : value) : props :=
  match ps with
  | [] => [(k, v)]
  | (k', v') :: ps' =>
      if String.eqb k' k then (k, v) :: ps'
      else if goes_before k k' then
        if existsb (fun p => String.eqb (fst p) k) ps'
        then (k', v') :: define ps' k v
        else (k, v) :: (k', v') :: ps'
      else (k', v') :: define ps' k v
  end.

(** An object literal [{ [k1]: v1, ..., [kn]: vn }]: the properties are
    created from left to right. *)
Definition object_literal (kvs : list (string * value)) : value :=
  VObj (fold_left (fun ps kv => define ps (fst kv) (snd kv)) kvs []).

(** ** The prototype chain *)

Definition Object_prototype_functions : list string :=
  [ "constructor"; "hasOwnProperty"; "isPrototypeOf"; "propertyIsEnumerable";
    "toLocaleString"; "toString"; "valueOf";
    "__defineGetter__"; "__defineSetter__";
    "__lookupGetter__"; "__lookupSetter__" ].

Definition Array_prototype_functions : list string :=
  [ "at"; "concat"; "copyWithin"; "entries"; "every"; "fill"; "filter";
    "find"; "findIndex"; "findLast"; "findLastIndex"; "flat"; "flatMap";
    "forEach"; "includes"; "indexOf"; "join"; "keys"; "lastIndexOf"; "map";
    "pop"; "push"; "reduce"; "reduceRight"; "reverse"; "shift"; "slice";
    "some"; "sort"; "splice"; "toReversed"; "toSorted"; "toSpliced";
    "unshift"; "values"; "with" ].

Definition mem (k : string) (l : list string) : bool :=
  existsb (String.eqb k) l.
Arguments mem : simpl never.

(** ** Property read [o[k]]

    Reading from [undefined] or [null] throws.  A plain object answers with
    its own property, then with what it inherits from [Object.prototype]; an
    array with its element or length, then with what it inherits from
    [Array.prototype] and [Object.prototype].  Of a prototype itself, read
    under [__proto__], only the kind is kept: an object without enumerable
    property, or an empty array.  For the other receivers only the own
    properties are modelled, not the members of [Number.prototype],
    [String.prototype], [Date.prototype] and [Function.prototype]; the
    statements about [buildCursorWhere] use of a read on such a receiver
    only that it does not throw. *)
Definition get (o : value) (k : string) : result value :=
  match o with
  | VUndefined | VNull => Throw TypeError
  | VObj ps =>
      match own ps k with
      | Some v => Ok v
      | None =>
          if String.eqb k "__proto__" then Ok (VObj [])
          else if mem k Object_prototype_functions then Ok (VBuiltin k)
          else Ok VUndefined
      end
  | VArr l =>
      match array_index k with
      | Some n =>
          Ok (nth (N.to_nat n) l VUndefined)
      | None =>
          if String.eqb k "length" then Ok (VNum (Z.of_nat (List.length l)))
          else if String.eqb k "__proto__" then Ok (VArr [])
          else if mem k Array_prototype_functions
                  || mem k Object_prototype_functions then Ok (VBuiltin k)
          else Ok VUndefined
      end
  | VStr s =>
      match array_index k with
      | Some n =>
          Ok (nth (N.to_nat n) (map VStr (Utf8.units s)) VUndefined)
      | None =>
          if String.eqb k "length"
          then Ok (VNum (Z.of_nat (List.length (Utf8.units s))))
          else Ok VUndefined
      end
  | VBool _ | VNum _ | VDate _ | VBuiltin _ => Ok VUndefined
  end.

(** Assignment [o[k] = v] to a data property of a plain object. *)
Definition set (o : value) (k : string) (v : value) : value :=
  match o with
  | VObj ps => VObj (define ps k v)
  | _ => o
  end.

(** ** [Object.keys] and [Object.values] *)

Definition Object_keys (o : value) : result (list string) :=
  match o with
  | VUndefined | VNull => Throw TypeError
  | VObj ps => Ok (map fst ps)
  | VArr l => Ok (map index_key (seq 0 (List.length l)))
  | VStr s => Ok (map index_key (seq 0 (List.length (Utf8.units s))))
  | VBool _ | VNum _ | VDate _ | VBuiltin _ => Ok []
  end.

Definition Object_values (o : value) : result (list value) :=
  match o with
  | VUndefined | VNull => Throw TypeError
  | VObj ps => Ok (map snd ps)
  | VArr l => Ok l
  | VStr s => Ok (map VStr (Utf8.units s))
  | VBool _ | VNum _ | VDate _ | VBuiltin _ => Ok []
  end.

End Js.
Export Js.

(* ================================================================== *)
(** * The host interface *)

(** The functions of the host that the module calls.
    - [JSON_stringify v] is [JSON.stringify(v)], with [None] for the result
      [undefined];
    - [JSON_parse s] is [JSON.parse(s)];
    - [Buffer_to_base64 s] is [Buffer.from(s).toString('base64')];
    - [Buffer_from_base64 t] is [Buffer.from(t, 'base64').toString('utf8')];
    - [Date_parse s] is the time value of [new Date(s)], with [None] for an
      invalid date. *)
Class Runtime : Type := {
  JSON_stringify : value -> option string;
  JSON_parse : string -> result value;
  Buffer_to_base64 : string -> string;
  Buffer_from_base64 : value -> result string;
  Date_parse : string -> option Z
}.

(** [new Date(v)].  The module only passes strings; the other primitives
    are converted as the language prescribes, and an object argument, whose
    conversion goes through its string form, is left invalid. *)
Definition new_Date {host : Runtime} (v : value) : value :=
  match v with
  | VStr s => VDate (Date_parse s)
  | VNum n => VDate (if Z.leb (Z.abs n) 8640000000000000 then Some n else None)
  | VDate t => VDate t
  | VNull => VDate (Some 0%Z)
  | VBool b => VDate (Some (if b then 1%Z else 0%Z))
  | VUndefined | VBuiltin _ | VArr _ | VObj _ => VDate None
  end.

(* ================================================================== *)
(** * The module [src/utils/cursor-pagination.js] *)

Section CursorPagination.
Context {host : Runtime}.

(** ** [createContinuationToken] (lines 18-28) *)
Definition createContinuationToken (data : value) (sort : list string)
  : result value :=
  if negb (truthy data) || Nat.eqb (List.length sort) 0 then Ok VNull
  else
    let tokenPayload :=
      object_literal [("data", data); ("sort", VArr (map VStr sort))] in
    match JSON_stringify tokenPayload with
    | Some jsonString => Ok (VStr (Buffer_to_base64 jsonString))
    | None => Throw TypeError
    end.

(** ** [parseContinuationToken] (lines 37-60) *)

(** The message of the error raised on line 58. *)
Definition invalid_cursor_message : string :=
  "유효하지 않은 커서(cursor) 값입니다.".

(** The body of the [try] block, lines 42-54.  [parsed.data] and
    [parsed.data.created_at] are read several times by the source; nothing
    changes them between the reads, so each is bound once. *)
Definition try_block (token : value) : result value :=
  jsonString <- Buffer_from_base64 token ;;
  parsed <- JSON_parse jsonString ;;
  invalid <-
    (if negb (truthy parsed) then Ok true
     else
       data <- get parsed "data" ;;
       if negb (String.eqb (typeof data) "object") then Ok true
       else
         sort <- get parsed "sort" ;;
         Ok (negb (isArray sort))) ;;
  if (invalid : bool) then Throw (Error "Invalid structure")
  else
    data <- get parsed "data" ;;
    created_at <- get data "created_at" ;;
    if truthy created_at && String.eqb (typeof created_at) "string"
    then Ok (set parsed "data" (set data "created_at" (new_Date created_at)))
    else Ok parsed.

(** What a call leaves behind: its completion, and what it wrote with
    [console.error]. *)
Record run : Type := {
  completion : result value;
  console_error : list exn
}.

Definition parseContinuationToken (token : value) : run :=
  if negb (truthy token) then {| completion := Ok VNull; console_error := [] |}
  else
    match try_block token with
    | Ok parsed => {| completion := Ok parsed; console_error := [] |}
    | Throw e =>
        {| completion := Throw (BadRequestError invalid_cursor_message);
           console_error := [e] |}
    end.

(** ** [orderByToSort] (lines 71-73) *)

Fixpoint Array_map {A B : Type} (f : A -> result B) (l : list A)
  : result (list B) :=
  match l with
  | [] => Ok []
  | x :: l' => y <- f x ;; ys <- Array_map f l' ;; Ok (y :: ys)
  end.

Definition orderByToSort (orderBy : list value) : result (list value) :=
  Array_map
    (fun item => keys <- Object_keys item ;; Ok (nth 0 (map VStr keys) VUndefined))
    orderBy.

(** ** [buildCursorWhere] (lines 82-118) *)

(** [Object.values(v)[0] === 'desc' ? 'lt' : 'gt'] *)
Definition direction_of (v : value) : result string :=
  values <- Object_values v ;;
  Ok (if strict_equals_string (nth 0 values VUndefined) "desc"
      then "lt" else "gt").

Definition buildCursorWhere (cursorData : value) (sort : list string)
  : result value :=
  if Nat.eqb (List.length sort) 0 then Ok (object_literal [])
  else
    let primaryField := nth 0 sort "" in
    primaryValue <- get cursorData primaryField ;;
    primaryDirection <- direction_of primaryValue ;;
    let whereClause :=
      object_literal
        [(primaryField, object_literal [(primaryDirection, primaryValue)])] in
    if Nat.ltb 1 (List.length sort) then
      let secondaryField := nth 1 sort "" in
      let secondaryDirection := primaryDirection in
      secondaryValue <- get cursorData secondaryField ;;
      Ok (object_literal
            [("OR",
              VArr
                [ whereClause;
                  object_literal
                    [(primaryField, primaryValue);
                     (secondaryField,
                      object_literal [(secondaryDirection, secondaryValue)])]
                ])])
    else Ok whereClause.

End CursorPagination.

(* ================================================================== *)
(** * An instance of the host interface

    The host is modelled on the fragment of values of [Js]: numbers are
    integers and strings are well-formed text. *)

(** ** Base64, as [Buffer] implements it *)

Module Base64.
Local Open Scope N_scope.

Definition alphabet : string :=
  "ABCDEFGHIJKLMNOPQRSTUVWXYZabcdefghijklmnopqrstuvwxyz0123456789+/".

Definition pad : ascii := "="%char.

Definition char_of (n : N) : ascii :=
  match String.get (N.to_nat n) alphabet with
  | Some c => c
  | None => pad
  end.

(** The decoder accepts the standard and the URL-safe alphabet. *)
Definition sextet_of (c : ascii) : option N :=
  let n := N_of_ascii c in
  if N.leb 65 n && N.leb n 90 then Some (n - 65)
  else if N.leb 97 n && N.leb n 122 then Some (n - 71)
  else if N.leb 48 n && N.leb n 57 then Some (n + 4)
  else if N.eqb n 43 || N.eqb n 45 then Some 62
  else if N.eqb n 47 || N.eqb n 95 then Some 63
  else None.

Definition byte (c : ascii) : N := N_of_ascii c.

(** [buf.toString('base64')] *)
Fixpoint encode (s : string) : string :=
  match s with
  | "" => ""
  | String a "" =>
      String (char_of (byte a / 4))
        (String (char_of ((byte a mod 4) * 16))
           (String pad (String pad "")))
  | String a (String b "") =>
      String (char_of (byte a / 4))
        (String (char_of ((byte a mod 4) * 16 + byte b / 16))
           (String (char_of ((byte b mod 16) * 4))
              (String pad "")))
  | String a (String b (String c s')) =>
      String (char_of (byte a / 4))
        (String (char_of ((byte a mod 4) * 16 + byte b / 16))
           (String (char_of ((byte b mod 16) * 4 + byte c / 64))
              (String (char_of (byte c mod 64)) (encode s'))))
  end.

(** [Buffer.from(s, 'base64')]: characters outside the alphabet are skipped,
    the first padding character ends the input, and an incomplete last group
    gives the bytes that are complete. *)
Fixpoint sextets (s : string) : list N :=
  match s with
  | "" => []
  | String c s' =>
      if Ascii.eqb c pad then []
      else
        match sextet_of c with
        | Some n => n :: sextets s'
        | None => sextets s'
        end
  end.

Fixpoint bytes (l : list N) : string :=
  match l with
  | s1 :: s2 :: s3 :: s4 :: l' =>
      String (ascii_of_N (s1 * 4 + s2 / 16))
        (String (ascii_of_N ((s2 mod 16) * 16 + s3 / 4))
           (String (ascii_of_N ((s3 mod 4) * 64 + s4)) (bytes l')))
  | [s1; s2; s3] =>
      String (ascii_of_N (s1 * 4 + s2 / 16))
        (String (ascii_of_N ((s2 mod 16) * 16 + s3 / 4)) "")
  | [s1; s2] => String (ascii_of_N (s1 * 4 + s2 / 16)) ""
  | _ => ""
  end.

Definition decode (s : string) : string := bytes (sextets s).

(** The test that a sextet is read back from its character. *)
Definition sextet_ok (n : N) : bool :=
  match sextet_of (char_of n) with
  | Some m => N.eqb m n && negb (Ascii.eqb (char_of n) pad)
  | None => false
  end.

End Base64.

(** ** Dates

    A time value is a number of milliseconds since the epoch, at most
    [8.64e15] in absolute value.  [toISOString] writes it as
    [YYYY-MM-DDTHH:mm:ss.sssZ], with a sign and six digits for a year
    outside [0, 9999]; [parse] reads that format back.  The other formats
    that [Date.parse] may accept, several of which depend on the engine and
    on the time zone of the host, are outside the fragment and give an
    invalid date here. *)

Module IsoDate.
Local Open Scope Z_scope.

Definition max_time : Z := 8640000000000000.

Definition in_range (t : Z) : bool := Z.leb (Z.abs t) max_time.

(** The Gregorian calendar, by periods of 400 years (146097 days) that
    start on a first of March. *)
Definition from_doe (doe : Z) : Z * Z * Z :=
  let yoe := (doe - doe / 1460 + doe / 36524 - doe / 146096) / 365 in
  let doy := doe - (365 * yoe + yoe / 4 - yoe / 100) in
  let mp := (5 * doy + 2) / 153 in
  let d := doy - (153 * mp + 2) / 5 + 1 in
  let m := if Z.ltb mp 10 then mp + 3 else mp - 9 in
  (yoe, m, d).

Definition to_doe (yoe m d : Z) : Z :=
  let mp := if Z.ltb 2 m then m - 3 else m + 9 in
  let doy := (153 * mp + 2) / 5 + d - 1 in
  yoe * 365 + yoe / 4 - yoe / 100 + doy.

(** Year, month and day of the month of a day number. *)
Definition civil (day : Z) : Z * Z * Z :=
  let z := day + 719468 in
  let '(yoe, m, d) := from_doe (z mod 146097) in
  (yoe + (z / 146097) * 400 + (if Z.leb m 2 then 1 else 0), m, d).

(** The day number of a date. *)
Definition days (y m d : Z) : Z :=
  let y' := if Z.leb m 2 then y - 1 else y in
  (y' / 400) * 146097 + to_doe (y' mod 400) m d - 719468.

Definition digit (n : Z) : ascii := ascii_of_N (Z.to_N (48 + n)).

(** [n] on [width] digits. *)
Fixpoint padded (width : nat) (n : Z) : string :=
  match width with
  | O => ""
  | S w =>
      String (digit (n / 10 ^ Z.of_nat w)) (padded w (n mod 10 ^ Z.of_nat w))
  end.

Definition year_string (y : Z) : string :=
  if Z.leb 0 y && Z.leb y 9999 then padded 4 y
  else String (if Z.ltb y 0 then "-" else "+")%char (padded 6 (Z.abs y)).

Definition toISOString (t : Z) : string :=
  let '(y, m, d) := civil (t / 86400000) in
  let ms := t mod 86400000 in
  year_string y ++ "-" ++ padded 2 m ++ "-" ++ padded 2 d
  ++ "T" ++ padded 2 (ms / 3600000)
  ++ ":" ++ padded 2 ((ms / 60000) mod 60)
  ++ ":" ++ padded 2 ((ms / 1000) mod 60)
  ++ "." ++ padded 3 (ms mod 1000) ++ "Z".

Definition digit_value (c : ascii) : option Z :=
  let n := Z.of_N (N_of_ascii c) in
  if Z.leb 48 n && Z.leb n 57 then Some (n - 48) else None.

(** Reads exactly [width] digits. *)
Fixpoint digits (width : nat) (acc : Z) (s : string) : option (Z * string) :=
  match width with
  | O => Some (acc, s)
  | S w =>
      match s with
      | String c s' =>
          match digit_value c with
          | Some v => digits w (10 * acc + v) s'
          | None => None
          end
      | "" => None
      end
  end.

Definition expect (c : ascii) (s : string) : option string :=
  match s with
  | String c' s' => if Ascii.eqb c' c then Some s' else None
  | "" => None
  end.

Definition year (s : string) : option (Z * string) :=
  match s with
  | String c s' =>
      if Ascii.eqb c "+" then digits 6 0 s'
      else if Ascii.eqb c "-" then
        match digits 6 0 s' with
        | Some (y, r) => if Z.eqb y 0 then None else Some (- y, r)
        | None => None
        end
      else digits 4 0 s
  | "" => None
  end.

Definition parse (s : string) : option Z :=
  match year s with
  | None => None
  | Some (y, s) =>
  match expect "-" s with None => None | Some s =>
  match digits 2 0 s with None => None | Some (m, s) =>
  match expect "-" s with None => None | Some s =>
  match digits 2 0 s with None => None | Some (d, s) =>
  match expect "T" s with None => None | Some s =>
  match digits 2 0 s with None => None | Some (h, s) =>
  match expect ":" s with None => None | Some s =>
  match digits 2 0 s with None => None | Some (mi, s) =>
  match expect ":" s with None => None | Some s =>
  match digits 2 0 s with None => None | Some (sec, s) =>
  match expect "." s with None => None | Some s =>
  match digits 3 0 s with None => None | Some (ms, s) =>
  match expect "Z" s with None => None | Some s =>
    if String.eqb s ""
       && Z.leb 1 m && Z.leb m 12 && Z.leb 1 d && Z.leb d 31
       && (Z.leb h 23 || (Z.eqb h 24 && Z.eqb mi 0 && Z.eqb sec 0
                          && Z.eqb ms 0))
       && Z.leb mi 59 && Z.leb sec 59
    then
      let t := days y m d * 86400000
               + h * 3600000 + mi * 60000 + sec * 1000 + ms in
      if in_range t then Some t else None
    else None
  end end end end end end end end end end end end end
  end.

(** The test that a digit is read back from its character, which is
    neither a sign nor above 127. *)
Definition digit_ok (n : Z) : bool :=
  match digit_value (digit n) with
  | Some m =>
      Z.eqb m n && negb (Ascii.eqb (digit n) "+")
      && negb (Ascii.eqb (digit n) "-") && Utf8.ascii7 (digit n)
  | None => false
  end.

Fixpoint all_from (n : nat) (from : Z) (ok : Z -> bool) : bool :=
  match n with
  | O => true
  | S n' => ok from && all_from n' (from + 1) ok
  end.

End IsoDate.

(** ** JSON *)

Module Json.

(** *** [JSON.stringify] *)

Definition hex_digit (n : N) : ascii :=
  if N.ltb n 10 then ascii_of_N (48 + n) else ascii_of_N (87 + n).

(** The text of one byte of a string inside a quoted string. *)
Definition escape (c : ascii) : string :=
  let n := N_of_ascii c in
  if N.eqb n 34 then "\" ++ String c ""
  else if N.eqb n 92 then "\\"
  else if N.eqb n 8 then "\b"
  else if N.eqb n 12 then "\f"
  else if N.eqb n 10 then "\n"
  else if N.eqb n 13 then "\r"
  else if N.eqb n 9 then "\t"
  else if N.ltb n 32 then
    "\u00" ++ String (hex_digit (n / 16)) (String (hex_digit (n mod 16)) "")
  else String c "".

Fixpoint escape_all (s : string) : string :=
  match s with
  | "" => ""
  | String c s' => escape c ++ escape_all s'
  end.

Definition quote (s : string) : string :=
  String (ascii_of_N 34) (escape_all s ++ String (ascii_of_N 34) "").

Definition number_to_string (n : Z) : string :=
  NilZero.string_of_int (Z.to_int n).

Fixpoint join (l : list string) : string :=
  match l with
  | [] => ""
  | [x] => x
  | x :: l' => x ++ "," ++ join l'
  end.

(** A [Date] is written through its [toJSON]; [undefined] and functions
    have no text: they are left out of an object and written [null] in an
    array. *)
Fixpoint stringify (v : value) : option string :=
  match v with
  | VUndefined | VBuiltin _ => None
  | VNull => Some "null"
  | VBool b => Some (if b then "true" else "false")
  | VNum n => Some (number_to_string n)
  | VStr s => Some (quote s)
  | VDate (Some t) => Some (quote (IsoDate.toISOString t))
  | VDate None => Some "null"
  | VArr l =>
      Some ("[" ++ join (map (fun x =>
                                match stringify x with
                                | Some s => s
                                | None => "null"
                                end) l) ++ "]")
  | VObj ps =>
      Some ("{" ++ join (flat_map (fun p =>
                                    match stringify (snd p) with
                                    | Some s => [quote (fst p) ++ ":" ++ s]
                                    | None => []
                                    end) ps) ++ "}")
  end.

(** *** [JSON.parse]

    A parser returns what it read and the rest of the text, or [None] for a
    syntax error. *)

Definition is_ws (c : ascii) : bool :=
  let n := N_of_ascii c in
  N.eqb n 32 || N.eqb n 9 || N.eqb n 10 || N.eqb n 13.

Fixpoint skip_ws (s : string) : string :=
  match s with
  | "" => ""
  | String c s' => if is_ws c then skip_ws s' else s
  end.

Definition hex_value (c : ascii) : option N :=
  let n := N_of_ascii c in
  if N.leb 48 n && N.leb n 57 then Some (n - 48)%N
  else if N.leb 65 n && N.leb n 70 then Some (n - 55)%N
  else if N.leb 97 n && N.leb n 102 then Some (n - 87)%N
  else None.

Definition hex4 (c1 c2 c3 c4 : ascii) : option N :=
  match hex_value c1, hex_value c2, hex_value c3, hex_value c4 with
  | Some a, Some b, Some c, Some d => Some (a * 4096 + b * 256 + c * 16 + d)%N
  | _, _, _, _ => None
  end.

Definition simple_escape (c : ascii) : option ascii :=
  let n := N_of_ascii c in
  if N.eqb n 34 || N.eqb n 92 || N.eqb n 47 then Some c
  else if N.eqb n 98 then Some (ascii_of_N 8)
  else if N.eqb n 102 then Some (ascii_of_N 12)
  else if N.eqb n 110 then Some (ascii_of_N 10)
  else if N.eqb n 114 then Some (ascii_of_N 13)
  else if N.eqb n 116 then Some (ascii_of_N 9)
  else None.

Definition prepend (x : string) (r : option (string * string))
  : option (string * string) :=
  match r with
  | Some (str, rest) => Some (x ++ str, rest)
  | None => None
  end.

(** The characters of a string, after its opening quote. *)
Fixpoint string_body (s : string) : option (string * string) :=
  match s with
  | "" => None
  | String c s1 =>
      if N.eqb (N_of_ascii c) 34 then Some ("", s1)
      else if N.eqb (N_of_ascii c) 92 then
        match s1 with
        | "" => None
        | String e s2 =>
            if N.eqb (N_of_ascii e) 117 then
              match s2 with
              | String h1 (String h2 (String h3 (String h4 s6))) =>
                  match hex4 h1 h2 h3 h4 with
                  | None => None
                  | Some u =>
                      match s6 with
                      | String b (String e' (String l1 (String l2
                          (String l3 (String l4 s12))))) =>
                          match hex4 l1 l2 l3 l4 with
                          | Some lo =>
                              if Utf8.is_high_surrogate u
                                 && N.eqb (N_of_ascii b) 92
                                 && N.eqb (N_of_ascii e') 117
                                 && Utf8.is_low_surrogate lo
                              then prepend (Utf8.of_pair u lo) (string_body s12)
                              else prepend (Utf8.of_unit u) (string_body s6)
                          | None => prepend (Utf8.of_unit u) (string_body s6)
                          end
                      | _ => prepend (Utf8.of_unit u) (string_body s6)
                      end
                  end
              | _ => None
              end
            else
              match simple_escape e with
              | Some c' => prepend (String c' "") (string_body s2)
              | None => None
              end
        end
      else if N.ltb (N_of_ascii c) 32 then None
      else prepend (String c "") (string_body s1)
  end.

Definition is_digit (c : ascii) : bool :=
  N.leb 48 (N_of_ascii c) && N.leb (N_of_ascii c) 57.

Fixpoint span_digits (s : string) : string * string :=
  match s with
  | "" => ("", "")
  | String c s' =>
      if is_digit c
      then let '(ds, rest) := span_digits s' in (String c ds, rest)
      else ("", s)
  end.

Definition starts_fraction_or_exponent (s : string) : bool :=
  match s with
  | String c _ =>
      let n := N_of_ascii c in N.eqb n 46 || N.eqb n 101 || N.eqb n 69
  | "" => false
  end.

(** An integer literal, after its sign.  A literal with a fraction or an
    exponent is outside the fragment and is refused. *)
Definition natural (s : string) : option (Z * string) :=
  match s with
  | String c s' =>
      if N.eqb (N_of_ascii c) 48 then
        if starts_fraction_or_exponent s' then None else Some (0%Z, s')
      else
        let '(ds, rest) := span_digits s in
        match NilZero.uint_of_string ds with
        | Some d =>
            if starts_fraction_or_exponent rest then None
            else Some (Z.of_N (N.of_uint d), rest)
        | None => None
        end
  | "" => None
  end.

Definition number (s : string) : option (value * string) :=
  match s with
  | String c s' =>
      if N.eqb (N_of_ascii c) 45 then
        match natural s' with
        | Some (n, rest) => Some (VNum (- n), rest)
        | None => None
        end
      else
        match natural s with
        | Some (n, rest) => Some (VNum n, rest)
        | None => None
        end
  | "" => None
  end.

Fixpoint literal (word s : string) : option string :=
  match word, s with
  | "", _ => Some s
  | String c word', String c' s' =>
      if Ascii.eqb c c' then literal word' s' else None
  | String _ _, "" => None
  end.

(** Values, the elements of an array after a first one, and the members of
    an object after a first one.  The fuel bounds the number of nested
    calls, which never exceeds the length of the text. *)
Fixpoint value_ (fuel : nat) (s : string) {struct fuel}
  : option (value * string) :=
  match fuel with
  | O => None
  | S fuel =>
      match skip_ws s with
      | "" => None
      | String c s' =>
          let n := N_of_ascii c in
          if N.eqb n 110 then
            match literal "ull" s' with
            | Some r => Some (VNull, r) | None => None
            end
          else if N.eqb n 116 then
            match literal "rue" s' with
            | Some r => Some (VBool true, r) | None => None
            end
          else if N.eqb n 102 then
            match literal "alse" s' with
            | Some r => Some (VBool false, r) | None => None
            end
          else if N.eqb n 34 then
            match string_body s' with
            | Some (str, r) => Some (VStr str, r) | None => None
            end
          else if N.eqb n 91 then
            match skip_ws s' with
            | String c' r =>
                if N.eqb (N_of_ascii c') 93 then Some (VArr [], r)
                else
                  match elements fuel s' with
                  | Some (l, r) => Some (VArr l, r) | None => None
                  end
            | "" => None
            end
          else if N.eqb n 123 then
            match skip_ws s' with
            | String c' r =>
                if N.eqb (N_of_ascii c') 125 then Some (VObj [], r)
                else
                  match members fuel s' with
                  | Some (kvs, r) => Some (object_literal kvs, r)
                  | None => None
                  end
            | "" => None
            end
          else number (String c s')
      end
  end

with elements (fuel : nat) (s : string) {struct fuel}
  : option (list value * string) :=
  match fuel with
  | O => None
  | S fuel =>
      match value_ fuel s with
      | None => None
      | Some (v, r) =>
          match skip_ws r with
          | String c r' =>
              if N.eqb (N_of_ascii c) 44 then
                match elements fuel r' with
                | Some (l, r'') => Some (v :: l, r'') | None => None
                end
              else if N.eqb (N_of_ascii c) 93 then Some ([v], r')
              else None
          | "" => None
          end
      end
  end

with members (fuel : nat) (s : string) {struct fuel}
  : option (list (string * value) * string) :=
  match fuel with
  | O => None
  | S fuel =>
      match skip_ws s with
      | String q s1 =>
          if N.eqb (N_of_ascii q) 34 then
            match string_body s1 with
            | None => None
            | Some (k, s2) =>
                match skip_ws s2 with
                | String colon s3 =>
                    if N.eqb (N_of_ascii colon) 58 then
                      match value_ fuel s3 with
                      | None => None
                      | Some (v, r) =>
                          match skip_ws r with
                          | String c r' =>
                              if N.eqb (N_of_ascii c) 44 then
                                match members fuel r' with
                                | Some (kvs, r'') => Some ((k, v) :: kvs, r'')
                                | None => None
                                end
                              else if N.eqb (N_of_ascii c) 125
                              then Some ([(k, v)], r')
                              else None
                          | "" => None
                          end
                      end
                    else None
                | "" => None
                end
            end
          else None
      | "" => None
      end
  end.

Definition parse (s : string) : result value :=
  match value_ (S (String.length s)) s with
  | Some (v, r) =>
      if String.eqb (skip_ws r) "" then Ok v else Throw SyntaxError
  | None => Throw SyntaxError
  end.

End Json.

(** ** The instance *)

(** [Buffer.from(token, 'base64').toString('utf8')].  A token that is a
    string is decoded; a number, a boolean, [null] or [undefined] is
    refused with a [TypeError].  [Buffer.from] copies an array or an
    array-like object instead of decoding it: that case is outside the
    fragment and is answered like the other tokens that are not strings. *)
Definition Node_Buffer_from_base64 (token : value) : result string :=
  match token with
  | VStr t => Ok (Utf8.decode (Base64.decode t))
  | _ => Throw TypeError
  end.

#[export] Instance Node : Runtime := {
  JSON_stringify := Json.stringify;
  JSON_parse := Json.parse;
  Buffer_to_base64 := Base64.encode;
  Buffer_from_base64 := Node_Buffer_from_base64;
  Date_parse := IsoDate.parse
}.

(* ================================================================== *)
(** * Vocabulary of the statements *)

Definition nullish (v : value) : bool :=
  match v with
  | VUndefined | VNull => true
  | _ => false
  end.

(** The operator that line 89 derives from the stored value [v], given the
    list [Object.values(v)]. *)
Definition operator (values : list value) : string :=
  if strict_equals_string (nth 0 values VUndefined) "desc" then "lt" else "gt".

(** The filter [{ [field]: { [op]: v } }]. *)
Definition comparison (field op : string) (v : value) : value :=
  VObj [(field, VObj [(op, v)])].

(** The filter built on lines 102-114, with the operator of each of its two
    comparisons made explicit. *)
Definition composite (primaryField secondaryField op1 op2 : string)
  (v1 v2 : value) : value :=
  VObj
    [("OR",
      VArr
        [ comparison primaryField op1 v1;
          object_literal
            [(primaryField, v1); (secondaryField, VObj [(op2, v2)])] ])].

(** The ordering entry [{ [field]: direction }]. *)
Definition entry (e : string * value) : value := VObj [(fst e, snd e)].

(** A key under which a receiver can only answer with a property of its
    own: not an array index, not [length], and no name of
    [Object.prototype] or [Array.prototype]. *)
Definition plain_key (k : string) : bool :=
  match array_index k with
  | Some _ => false
  | None =>
      negb (String.eqb k "length") && negb (String.eqb k "__proto__")
      && negb (mem k Array_prototype_functions)
      && negb (mem k Object_prototype_functions)
  end.

(** Lines 45-54 of [parseContinuationToken]: what becomes of the parsed
    text. *)
Definition validated {host : Runtime} (parsed : value) : result value :=
  invalid <-
    (if negb (truthy parsed) then Ok true
     else
       data <- get parsed "data" ;;
       if negb (String.eqb (typeof data) "object") then Ok true
       else
         sort <- get parsed "sort" ;;
         Ok (negb (isArray sort))) ;;
  if (invalid : bool) then Throw (Error "Invalid structure")
  else
    data <- get parsed "data" ;;
    created_at <- get data "created_at" ;;
    if truthy created_at && String.eqb (typeof created_at) "string"
    then Ok (set parsed "data" (set data "created_at" (new_Date created_at)))
    else Ok parsed.

(** The structure that line 45 lets through: an object whose [data] is an
    object and whose [sort] is an array. *)
Definition structured (parsed : value) (ps : props) (data : value)
  (sort : list value) : Prop :=
  parsed = VObj ps
  /\ own ps "data" = Some data
  /\ typeof data = "object"
  /\ data <> VNull
  /\ get parsed "sort" = Ok (VArr sort).

(** ** Values that [JSON] texts denote

    [json v] holds of the values made of [null], booleans, integers that a
    number represents exactly, well-formed strings, arrays, and objects whose
    keys are in enumeration order. *)

Definition safe_integer (n : Z) : bool := Z.leb (Z.abs n) 9007199254740991.

Fixpoint canonical_keys (ks : list string) : bool :=
  match ks with
  | [] => true
  | k :: ks' =>
      forallb (fun k' => negb (String.eqb k' k) && negb (goes_before k' k)) ks'
      && canonical_keys ks'
  end.

Fixpoint json (v : value) : bool :=
  match v with
  | VNull | VBool _ => true
  | VNum n => safe_integer n
  | VStr s => Utf8.valid s
  | VArr l => forallb json l
  | VObj ps =>
      canonical_keys (map fst ps)
      && forallb (fun p => Utf8.valid (fst p) && json (snd p)) ps
  | VUndefined | VDate _ | VBuiltin _ => false
  end.

(** The text of a value where one is required: [JSON.stringify(v)], or
    [null] when there is none. *)
Definition text (v : value) : string :=
  match Json.stringify v with
  | Some s => s
  | None => "null"
  end.

(** The text of a member of an object. *)
Definition member (p : string * value) : string :=
  Json.quote (fst p) ++ ":" ++ text (snd p).

(** A bound on the number of nested calls the parser makes on the text of
    a value. *)
Fixpoint size (v : value) : nat :=
  match v with
  | VArr l => S (fold_right (fun x n => S (size x + n)) 0%nat l)
  | VObj ps => S (fold_right (fun p n => S (size (snd p) + n)) 0%nat ps)
  | _ => 1
  end.

(** What may come after a value inside a text: nothing, a comma, or a
    closing bracket or brace. *)
Definition follows (rest : string) : bool :=
  match rest with
  | "" => true
  | String c _ =>
      let n := N_of_ascii c in N.eqb n 44 || N.eqb n 93 || N.eqb n 125
  end.

Definition elements_size (l : list value) : nat :=
  fold_right (fun x n => S (size x + n)) 0%nat l.

Definition members_size (ps : list (string * value)) : nat :=
  fold_right (fun p n => S (size (snd p) + n)) 0%nat ps.

Definition members_json (ps : list (string * value)) : bool :=
  forallb (fun p => Utf8.valid (fst p) && json (snd p)) ps.

(** The first character of the text of a value. *)
Definition value_start (c : ascii) : bool :=
  let n := N_of_ascii c in
  N.eqb n 110 || N.eqb n 116 || N.eqb n 102 || N.eqb n 34 || N.eqb n 91
  || N.eqb n 123 || N.eqb n 45 || (N.leb 48 n && N.leb n 57).

(** ** Markers that the token codec gives back

    A field is kept when its key is well-formed text and its value is a
    [json] value, with two provisos about [created_at]: it may hold a valid
    [Date], and it may not hold a non-empty string. *)
Definition kept_field (p : string * value) : bool :=
  Utf8.valid (fst p)
  && match snd p with
     | VDate (Some t) => String.eqb (fst p) "created_at" && IsoDate.in_range t
     | VStr s =>
         Utf8.valid s
         && negb (String.eqb (fst p) "created_at" && negb (String.eqb s ""))
     | v => json v
     end.

Definition kept_marker (marker : value) : bool :=
  match marker with
  | VObj ps => canonical_keys (map fst ps) && forallb kept_field ps
  | _ => false
  end.

(** A field as [JSON.stringify] writes it: a valid [Date] becomes the
    string [toISOString] gives. *)
Definition written_value (v : value) : value :=
  match v with
  | VDate (Some t) => VStr (IsoDate.toISOString t)
  | _ => v
  end.

Definition written (p : string * value) : string * value :=
  (fst p, written_value (snd p)).

(** The object [{data, sort}] of line 22. *)
Definition payload (data : value) (sort : list string) : value :=
  VObj [("data", data); ("sort", VArr (map VStr sort))].

(** A token whose payload holds a creation date, written by
    [createContinuationToken] for the marker
    [{ created_at: new Date(1700000000000), id: 7 }] and the sort
    [['created_at', 'id']]. *)
Definition dated_token : string :=
  "eyJkYXRhIjp7ImNyZWF0ZWRfYXQiOiIyMDIzLTExLTE0VDIyOjEzOjIwLjAwMFoiLCJpZCI6N30sInNvcnQiOlsiY3JlYXRlZF9hdCIsImlkIl19".

(** The token of the marker [{ id: 7 }] and the sort [['id']]. *)
Definition plain_token : string :=
  "eyJkYXRhIjp7ImlkIjo3fSwic29ydCI6WyJpZCJdfQ==".

(** A token, which [createContinuationToken] never writes, of a text whose
    [data] is [null] and whose [sort] is the empty array. *)
Definition null_marker_token : string := "eyJkYXRhIjpudWxsLCJzb3J0IjpbXX0=".

(** A character of a Base64 text: one of the 64 of the alphabet, or the
    padding character. *)
Definition token_char (c : ascii) : bool :=
  existsb (Ascii.eqb c) (list_ascii_of_string Base64.alphabet)
  || Ascii.eqb c Base64.pad.

(* ================================================================== *)
(** * Completions *)

(** A sequence that completes normally completed normally at each step. *)
Lemma bind_Ok_inv {A B : Type} (m : result A) (k : A -> result B) (b : B) :
  bind m k = Ok b -> exists a, m = Ok a /\ k a = Ok b.
Proof. destruct m as [a|e]; simpl; intros H; [eauto | discriminate]. Qed.

(* ================================================================== *)
(** * Properties of the range-predicate builder *)

Module Where.

Lemma Object_values_nullish (v : value) :
  nullish v = true -> Object_values v = Throw TypeError.
Proof. destruct v; simpl; intros E; try discriminate; reflexivity. Qed.

Lemma Object_values_total (v : value) :
  nullish v = false -> exists values, Object_values v = Ok values.
Proof. destruct v; simpl; intros E; try discriminate; eauto. Qed.

Lemma direction_of_values (v : value) (values : list value) :
  Object_values v = Ok values -> direction_of v = Ok (operator values).
Proof. intros E. unfold direction_of. rewrite E. reflexivity. Qed.

(** A receiver that answered one read answers every read. *)
Lemma get_total (o : value) (k k' : string) (v : value) :
  get o k = Ok v -> exists v', get o k' = Ok v'.
Proof.
  destruct o; intros E; try discriminate E; unfold get;
    repeat match goal with
           | |- exists _, match ?x with _ => _ end = _ => destruct x
           end;
    eauto.
Qed.

Lemma buildCursorWhere_one (cursorData : value) (field : string)
  (v : value) (values : list value) :
  get cursorData field = Ok v ->
  Object_values v = Ok values ->
  buildCursorWhere cursorData [field]
  = Ok (comparison field (operator values) v).
Proof.
  intros Hget Hvals. unfold buildCursorWhere. simpl.
  rewrite Hget. simpl. rewrite (direction_of_values _ _ Hvals). reflexivity.
Qed.

Lemma buildCursorWhere_two (cursorData : value)
  (primaryField secondaryField : string) (rest : list string)
  (v1 v2 : value) (values : list value) :
  get cursorData primaryField = Ok v1 ->
  Object_values v1 = Ok values ->
  get cursorData secondaryField = Ok v2 ->
  buildCursorWhere cursorData (primaryField :: secondaryField :: rest)
  = Ok (composite primaryField secondaryField
          (operator values) (operator values) v1 v2).
Proof.
  intros Hget1 Hvals Hget2. unfold buildCursorWhere. simpl.
  rewrite Hget1. simpl. rewrite (direction_of_values _ _ Hvals). simpl.
  rewrite Hget2. reflexivity.
Qed.


(** ** C2 *)




(** ** C3 *)




(** ** C7 *)



(** ** C8 *)

(** C8: on a sort list with more than two fields, [buildCursorWhere]
    returns exactly what it returns on the first two fields alone: the
    fields after the second have no part in the result. *)
Theorem two_field_truncation (cursorData : value) (sort : list string) :
  2 < List.length sort ->
  buildCursorWhere cursorData sort
  = buildCursorWhere cursorData (firstn 2 sort).
Proof.
  intros Hlen.
  destruct sort as [|f1 [|f2 [|f3 rest]]]; simpl in Hlen; try lia.
  unfold buildCursorWhere. simpl.
  destruct (get cursorData f1) as [v1|e]; simpl; [| reflexivity].
  destruct (direction_of v1) as [op|e]; reflexivity.
Qed.

Lemma two_field_truncation_witness :
  buildCursorWhere
    (VObj [("created_at", VNum 1700000000000); ("id", VNum 7);
           ("name", VStr "a")])
    ["created_at"; "id"; "name"]
  = buildCursorWhere
      (VObj [("created_at", VNum 1700000000000); ("id", VNum 7);
             ("name", VStr "a")])
      (firstn 2 ["created_at"; "id"; "name"]).
Proof.
  apply (two_field_truncation
           (VObj [("created_at", VNum 1700000000000); ("id", VNum 7);
                  ("name", VStr "a")])
           ["created_at"; "id"; "name"]).
  simpl. lia.
Defined.

(** ** C10 *)

(** C10 (as amended): for a non-empty sort list, let [v] be the value read
    from the marker under the primary field [sort[0]].  If [v] is
    [undefined] or [null], the call throws a [TypeError] (so neither a
    [BadRequestError] nor a filter); for every other [v], an object or a
    primitive, the call returns a filter. *)
Theorem primary_field_precondition (cursorData : value) (field : string)
  (rest : list string) (v : value) :
  get cursorData field = Ok v ->
  (nullish v = true ->
   buildCursorWhere cursorData (field :: rest) = Throw TypeError)
  /\ (nullish v = false ->
      exists w, buildCursorWhere cursorData (field :: rest) = Ok w).
Proof.
  intros Hget. split; intros Hn.
  - unfold buildCursorWhere. simpl. rewrite Hget. simpl.
    unfold direction_of. rewrite (Object_values_nullish _ Hn). reflexivity.
  - destruct (Object_values_total _ Hn) as (values & Hv).
    destruct rest as [|secondaryField rest].
    + rewrite (buildCursorWhere_one _ _ _ _ Hget Hv). eauto.
    + destruct (get_total _ _ secondaryField _ Hget) as (v2 & H2).
      rewrite (buildCursorWhere_two _ _ _ _ _ _ _ Hget Hv H2). eauto.
Qed.

Lemma primary_field_precondition_witness :
  (nullish VUndefined = true ->
   buildCursorWhere (VObj [("id", VNum 5)]) ["created_at"] = Throw TypeError)
  /\ (nullish VUndefined = false ->
      exists w, buildCursorWhere (VObj [("id", VNum 5)]) ["created_at"] = Ok w).
Proof.
  apply (primary_field_precondition
           (VObj [("id", VNum 5)]) "created_at" [] VUndefined).
  reflexivity.
Defined.

(** C10 as stated fails: the marker [{id: 5}] binds the primary field to a
    number, which is not an object, and the call returns the filter
    [id > 5]. *)
Lemma primary_field_precondition_counterexample :
  get (VObj [("id", VNum 5)]) "id" = Ok (VNum 5)
  /\ typeof (VNum 5) = "number"
  /\ buildCursorWhere (VObj [("id", VNum 5)]) ["id"]
     = Ok (VObj [("id", VObj [("gt", VNum 5)])]).
Proof. repeat split. Qed.

(** The missing field: a plain object without the field throws, unless the
    name is one it inherits. *)
Example missing_field_throws :
  buildCursorWhere (VObj [("id", VNum 5)]) ["created_at"] = Throw TypeError.
Proof. reflexivity. Qed.

Example inherited_field_returns :
  buildCursorWhere (VObj [("id", VNum 5)]) ["toString"]
  = Ok (VObj [("toString", VObj [("gt", VBuiltin "toString")])]).
Proof. reflexivity. Qed.

Example empty_sort : forall cursorData,
  buildCursorWhere cursorData [] = Ok (VObj []).
Proof. reflexivity. Qed.

End Where.

(* ================================================================== *)
(** * Properties of the sort extraction *)

Module Sort.

(** C9: on a list of single-key mappings, [orderByToSort] returns the key
    of each entry, in the order of the entries; the directions are dropped
    and repeated keys are kept.  In particular
    [orderByToSort([{created_at: "desc"}, {id: "asc"}])] is
    [["created_at", "id"]]. *)
Theorem sort_extraction :
  (forall entries : list (string * value),
     orderByToSort (map entry entries)
     = Ok (map (fun e => VStr (fst e)) entries))
  /\ orderByToSort
       [VObj [("created_at", VStr "desc")]; VObj [("id", VStr "asc")]]
     = Ok [VStr "created_at"; VStr "id"].
Proof.
  split; [| reflexivity].
  induction entries as [|[k d] entries IH]; [reflexivity |].
  unfold orderByToSort in *. simpl in *. rewrite IH. reflexivity.
Qed.

Example duplicates_kept :
  orderByToSort [VObj [("id", VStr "desc")]; VObj [("id", VStr "asc")]]
  = Ok [VStr "id"; VStr "id"].
Proof. reflexivity. Qed.

End Sort.

(* ================================================================== *)
(** * Properties of the token codec that hold on every host *)

Module ObjectFacts.

Lemma own_existsb (ps : props) (k : string) (x : value) :
  own ps k = Some x -> existsb (fun p => String.eqb (fst p) k) ps = true.
Proof.
  induction ps as [|[k' v'] ps IH]; simpl; [discriminate |].
  destruct (String.eqb k' k); simpl; auto.
Qed.

Lemma own_define_same (ps : props) (k : string) (v : value) :
  own (define ps k v) k = Some v.
Proof.
  induction ps as [|[k' v'] ps IH]; simpl.
  - now rewrite String.eqb_refl.
  - destruct (String.eqb k' k) eqn:E; simpl.
    + now rewrite String.eqb_refl.
    + destruct (goes_before k k');
        [destruct (existsb (fun p => String.eqb (fst p) k) ps) |];
        simpl; rewrite ?E, ?String.eqb_refl; auto.
Qed.

Lemma own_define_other (ps : props) (k k' : string) (v : value) :
  k' <> k -> own (define ps k v) k' = own ps k'.
Proof.
  intros Hne. apply not_eq_sym in Hne.
  apply String.eqb_neq in Hne.
  induction ps as [|[k0 v0] ps IH]; simpl.
  - now rewrite Hne.
  - destruct (String.eqb k0 k) eqn:E; simpl.
    + apply String.eqb_eq in E. subst k0. now rewrite Hne.
    + destruct (goes_before k k0);
        [destruct (existsb (fun p => String.eqb (fst p) k) ps) |];
        simpl; rewrite ?Hne, ?IH; reflexivity.
Qed.

Lemma keys_define_present (ps : props) (k : string) (v x : value) :
  own ps k = Some x -> map fst (define ps k v) = map fst ps.
Proof.
  induction ps as [|[k0 v0] ps IH]; simpl; [discriminate |].
  destruct (String.eqb k0 k) eqn:E; simpl.
  - apply String.eqb_eq in E. now subst k0.
  - intros Hown. rewrite (own_existsb _ _ _ Hown).
    destruct (goes_before k k0); simpl; now rewrite IH.
Qed.

Lemma get_set_same (ps : props) (k : string) (v : value) :
  get (set (VObj ps) k v) k = Ok v.
Proof. simpl. now rewrite own_define_same. Qed.

Lemma get_set_other (ps : props) (k k' : string) (v : value) :
  k' <> k -> get (set (VObj ps) k v) k' = get (VObj ps) k'.
Proof. intros Hne. simpl. now rewrite own_define_other. Qed.

Lemma get_plain_key (o : value) (k : string) (v : value) :
  plain_key k = true ->
  get o k = Ok v ->
  v <> VUndefined ->
  exists ps, o = VObj ps /\ own ps k = Some v.
Proof.
  unfold plain_key. intros Hk Hget Hv.
  destruct (array_index k) eqn:Hidx; [discriminate |].
  apply andb_prop in Hk. destruct Hk as [Hk Hobj].
  apply andb_prop in Hk. destruct Hk as [Hk Harr].
  apply andb_prop in Hk. destruct Hk as [Hlen Hproto].
  apply negb_true_iff in Hlen, Hproto, Harr, Hobj.
  destruct o as [| | | | | | | |ps]; simpl in Hget; try discriminate;
    rewrite ?Hidx, ?Hlen, ?Hproto, ?Harr, ?Hobj in Hget; simpl in Hget;
    try (injection Hget as <-; now elim Hv).
  destruct (own ps k) as [x|] eqn:Hown.
  - injection Hget as <-. eauto.
  - injection Hget as <-. now elim Hv.
Qed.

Lemma get_plain_key_own (ps : props) (k : string) :
  plain_key k = true ->
  get (VObj ps) k = Ok (match own ps k with Some v => v | None => VUndefined end).
Proof.
  unfold plain_key. intros Hk.
  destruct (array_index k) eqn:Hidx; [discriminate |].
  apply andb_prop in Hk. destruct Hk as [Hk Hobj].
  apply andb_prop in Hk. destruct Hk as [Hk Harr].
  apply andb_prop in Hk. destruct Hk as [Hlen Hproto].
  apply negb_true_iff in Hlen, Hproto, Harr, Hobj.
  simpl. destruct (own ps k); [reflexivity |].
  now rewrite Hproto, Hobj.
Qed.

Lemma truthy_string (c : value) :
  truthy c && String.eqb (typeof c) "string" = true ->
  exists s, c = VStr s /\ s <> "".
Proof.
  destruct c as [| |b|n|s|t|name|l|ps]; simpl; intros E;
    try (rewrite ?andb_false_r in E; discriminate).
  exists s. split; [reflexivity |].
  rewrite andb_true_r in E. apply negb_true_iff in E.
  now apply String.eqb_neq.
Qed.

End ObjectFacts.

Module Token.
Import ObjectFacts.

Section AnyHost.
Context {host : Runtime}.

Lemma try_block_validated (token : value) :
  try_block token
  = (jsonString <- Buffer_from_base64 token ;;
     parsed <- JSON_parse jsonString ;;
     validated parsed).
Proof. reflexivity. Qed.

Lemma validated_Ok (parsed r : value) :
  validated parsed = Ok r ->
  exists ps data sort,
    structured parsed ps data sort
    /\ ((exists dps s,
           data = VObj dps /\ own dps "created_at" = Some (VStr s)
           /\ s <> ""
           /\ r = VObj (define ps "data"
                          (VObj (define dps "created_at"
                                   (VDate (Date_parse s))))))
        \/ (r = parsed
            /\ forall s, get data "created_at" = Ok (VStr s) -> s = "")).
Proof.
  unfold validated. intros E.
  apply bind_Ok_inv in E. destruct E as (invalid & Hinv & E).
  destruct invalid; [discriminate |].
  destruct (truthy parsed) eqn:Htruthy; simpl in Hinv; [| discriminate].
  apply bind_Ok_inv in Hinv. destruct Hinv as (data & Hdata & Hinv).
  destruct (String.eqb (typeof data) "object") eqn:Htype; simpl in Hinv;
    [| discriminate].
  apply String.eqb_eq in Htype.
  apply bind_Ok_inv in Hinv. destruct Hinv as (sort & Hsort & Hinv).
  destruct sort; try discriminate. clear Hinv.
  rewrite Hdata in E. simpl in E.
  apply bind_Ok_inv in E. destruct E as (c & Hc & E).
  assert (Hnn : data <> VNull) by (intros ->; discriminate).
  destruct (get_plain_key parsed "data" data eq_refl Hdata) as (ps & -> & Hown).
  { intros ->. discriminate. }
  exists ps, data, elems. split; [repeat split; trivial |].
  destruct (truthy c && String.eqb (typeof c) "string") eqn:Hrestore.
  - left. destruct (truthy_string _ Hrestore) as (s & -> & Hs).
    destruct (get_plain_key data "created_at" _ eq_refl Hc) as (dps & -> & Hd).
    { discriminate. }
    exists dps, s. repeat split; trivial. now injection E as <-.
  - right. injection E as <-. split; [reflexivity |].
    intros s Hs. rewrite Hs in Hc. injection Hc as <-.
    simpl in Hrestore. rewrite andb_true_r in Hrestore.
    apply negb_false_iff in Hrestore. now apply String.eqb_eq.
Qed.


Lemma parse_completion_Ok (token parsed : value) :
  truthy token = true ->
  completion (parseContinuationToken token) = Ok parsed ->
  try_block token = Ok parsed.
Proof.
  unfold parseContinuationToken. intros ->. simpl.
  destruct (try_block token); simpl; [congruence | discriminate].
Qed.

End AnyHost.

(** C5: [createContinuationToken] returns [null] when the marker is [null]
    or [undefined], whatever the sort list, and when the sort list is
    empty, whatever the marker; [parseContinuationToken] returns [null] on
    [undefined] and on [null], without raising or logging anything. *)
Theorem no_op_on_empty_input (host : Runtime) :
  (forall sort, createContinuationToken VNull sort = Ok VNull)
  /\ (forall sort, createContinuationToken VUndefined sort = Ok VNull)
  /\ (forall data, createContinuationToken data [] = Ok VNull)
  /\ parseContinuationToken VUndefined
     = {| completion := Ok VNull; console_error := [] |}
  /\ parseContinuationToken VNull
     = {| completion := Ok VNull; console_error := [] |}.
Proof.
  repeat split.
  intros data. unfold createContinuationToken. simpl.
  now rewrite orb_true_r.
Qed.

(** C4: on a non-empty string token, [parseContinuationToken] either
    returns an object whose [data] is a non-null object and whose [sort] is
    an array, or throws a [BadRequestError] that carries the fixed message;
    in the second case the cause, whatever it was, has only been written to
    the console. *)
Theorem single_error_kind (host : Runtime) (token : string) :
  token <> "" ->
  (exists parsed data sort,
     parseContinuationToken (VStr token)
     = {| completion := Ok parsed; console_error := [] |}
     /\ get parsed "data" = Ok data
     /\ typeof data = "object"
     /\ data <> VNull
     /\ get parsed "sort" = Ok (VArr sort))
  \/ (exists cause,
        parseContinuationToken (VStr token)
        = {| completion := Throw (BadRequestError invalid_cursor_message);
             console_error := [cause] |}).
Proof.
  intros Hne. unfold parseContinuationToken. simpl.
  apply String.eqb_neq in Hne. rewrite Hne. simpl.
  destruct (try_block (VStr token)) as [parsed|cause] eqn:E; [left | eauto].
  rewrite try_block_validated in E.
  apply bind_Ok_inv in E. destruct E as (js & _ & E).
  apply bind_Ok_inv in E. destruct E as (decoded & _ & E).
  destruct (validated_Ok _ _ E)
    as (ps & data & sort & (-> & Hown & Htype & Hnn & Hsort) & Hcase).
  destruct Hcase as [(dps & s & -> & Hc & Hs & ->) | (-> & _)].
  - exists (VObj (define ps "data"
                    (VObj (define dps "created_at" (VDate (Date_parse s)))))),
      (VObj (define dps "created_at" (VDate (Date_parse s)))), sort.
    repeat split.
    + apply (get_set_same ps).
    + discriminate.
    + rewrite <- Hsort. apply (get_set_other ps). discriminate.
  - exists (VObj ps), data, sort. repeat split; trivial.
    simpl. now rewrite Hown.
Qed.

Lemma single_error_kind_witness :
  (exists parsed data sort,
     parseContinuationToken (host := Node) (VStr "e30=")
     = {| completion := Ok parsed; console_error := [] |}
     /\ get parsed "data" = Ok data
     /\ typeof data = "object"
     /\ data <> VNull
     /\ get parsed "sort" = Ok (VArr sort))
  \/ (exists cause,
        parseContinuationToken (host := Node) (VStr "e30=")
        = {| completion := Throw (BadRequestError invalid_cursor_message);
             console_error := [cause] |}).
Proof. apply (single_error_kind Node "e30="). discriminate. Defined.

(** Both outcomes occur: the text [{}] is refused for its structure, and a
    text with the two fields is returned. *)
Example refused_token :
  parseContinuationToken (host := Node) (VStr "e30=")
  = {| completion := Throw (BadRequestError invalid_cursor_message);
       console_error := [Error "Invalid structure"] |}.
Proof. vm_compute. reflexivity. Qed.

(** The token below is the encoding of the text in which [data] is [null]
    and [sort] is the empty array: line 45 lets it through, since
    [typeof null] is ["object"], and line 50 throws a [TypeError], which
    the [catch] turns into the same [BadRequestError]. *)
Example null_data_token :
  JSON_stringify (VObj [("data", VNull); ("sort", VArr [])])
  = match Buffer_from_base64 (VStr "eyJkYXRhIjpudWxsLCJzb3J0IjpbXX0=") with
    | Ok text => Some text
    | Throw _ => None
    end
  /\ parseContinuationToken (host := Node)
       (VStr "eyJkYXRhIjpudWxsLCJzb3J0IjpbXX0=")
     = {| completion := Throw (BadRequestError invalid_cursor_message);
          console_error := [TypeError] |}.
Proof. split; vm_compute; reflexivity. Qed.

(** [dated_token] is the token of the marker
    [{created_at: new Date(1700000000000), id: 7}]. *)
Example dated_token_created :
  createContinuationToken (host := Node)
    (VObj [("created_at", VDate (Some 1700000000000%Z)); ("id", VNum 7)])
    ["created_at"; "id"]
  = Ok (VStr dated_token).
Proof. vm_compute. reflexivity. Qed.

(** C6 (as amended): when [parseContinuationToken] succeeds on a token and
    the data object of the decoded text holds a non-empty string under
    [created_at], the returned data object holds under [created_at] the
    [Date] made from that string, holds under every other key what the
    decoded one held, and has the same keys in the same order; the other
    fields of the decoded object are returned as they were. *)
Theorem temporal_reconstruction (host : Runtime) (token : value)
  (jsonString : string) (decoded data parsed : value) (s : string) :
  truthy token = true ->
  Buffer_from_base64 token = Ok jsonString ->
  JSON_parse jsonString = Ok decoded ->
  get decoded "data" = Ok data ->
  get data "created_at" = Ok (VStr s) ->
  s <> "" ->
  completion (parseContinuationToken token) = Ok parsed ->
  exists data',
    get parsed "data" = Ok data'
    /\ get data' "created_at" = Ok (VDate (Date_parse s))
    /\ (forall k, k <> "created_at" -> get data' k = get data k)
    /\ Object_keys data' = Object_keys data
    /\ (forall k, k <> "data" -> get parsed k = get decoded k).
Proof.
  intros Htok Hbuf Hjson Hdata Hc Hs Hdone.
  apply (parse_completion_Ok _ _ Htok) in Hdone.
  rewrite try_block_validated, Hbuf in Hdone. simpl in Hdone.
  rewrite Hjson in Hdone. simpl in Hdone.
  destruct (validated_Ok _ _ Hdone)
    as (ps & data0 & sort & (-> & Hown & Htype & Hnn & Hsort) & Hcase).
  simpl in Hdata. rewrite Hown in Hdata. injection Hdata as ->.
  destruct Hcase as [(dps & s0 & -> & Hc0 & _ & ->) | (_ & Hempty)];
    [| now elim Hs; apply Hempty].
  simpl in Hc. rewrite Hc0 in Hc. injection Hc as ->.
  exists (VObj (define dps "created_at" (VDate (Date_parse s)))).
  split; [apply (get_set_same ps) |].
  split; [apply (get_set_same dps) |].
  split; [intros k Hk; now apply (get_set_other dps) |].
  split; [simpl; f_equal; apply (keys_define_present _ _ _ _ Hc0) |].
  intros k Hk. now apply (get_set_other ps).
Qed.

Lemma temporal_reconstruction_witness :
  exists data',
    get (VObj [("data", VObj [("created_at", VDate (Some 1700000000000%Z));
                              ("id", VNum 7)]);
               ("sort", VArr [VStr "created_at"; VStr "id"])]) "data"
    = Ok data'
    /\ get data' "created_at"
       = Ok (VDate (Date_parse (Runtime := Node) "2023-11-14T22:13:20.000Z"))
    /\ (forall k, k <> "created_at" ->
        get data' k
        = get (VObj [("created_at", VStr "2023-11-14T22:13:20.000Z");
                     ("id", VNum 7)]) k)
    /\ Object_keys data'
       = Object_keys (VObj [("created_at", VStr "2023-11-14T22:13:20.000Z");
                            ("id", VNum 7)])
    /\ (forall k, k <> "data" ->
        get (VObj [("data", VObj [("created_at", VDate (Some 1700000000000%Z));
                                  ("id", VNum 7)]);
                   ("sort", VArr [VStr "created_at"; VStr "id"])]) k
        = get (VObj [("data",
                      VObj [("created_at", VStr "2023-11-14T22:13:20.000Z");
                            ("id", VNum 7)]);
                     ("sort", VArr [VStr "created_at"; VStr "id"])]) k).
Proof.
  eapply (temporal_reconstruction Node (VStr dated_token) _
            (VObj [("data",
                    VObj [("created_at", VStr "2023-11-14T22:13:20.000Z");
                          ("id", VNum 7)]);
                   ("sort", VArr [VStr "created_at"; VStr "id"])])
            (VObj [("created_at", VStr "2023-11-14T22:13:20.000Z");
                   ("id", VNum 7)])
            (VObj [("data", VObj [("created_at", VDate (Some 1700000000000%Z));
                                  ("id", VNum 7)]);
                   ("sort", VArr [VStr "created_at"; VStr "id"])])
            "2023-11-14T22:13:20.000Z");
    try (vm_compute; reflexivity).
  discriminate.
Defined.

(** C6 as stated fails when the string is empty.  The token below is what
    [createContinuationToken] makes of the marker [{created_at: "", id: 7}];
    decoding it returns the marker with the empty string itself under
    [created_at], not with a date. *)
Lemma temporal_reconstruction_counterexample :
  let token :=
    VStr "eyJkYXRhIjp7ImNyZWF0ZWRfYXQiOiIiLCJpZCI6N30sInNvcnQiOlsiY3JlYXRlZF9hdCIsImlkIl19" in
  createContinuationToken (host := Node)
    (VObj [("created_at", VStr ""); ("id", VNum 7)]) ["created_at"; "id"]
  = Ok token
  /\ parseContinuationToken (host := Node) token
     = {| completion :=
            Ok (VObj [("data", VObj [("created_at", VStr ""); ("id", VNum 7)]);
                      ("sort", VArr [VStr "created_at"; VStr "id"])]);
          console_error := [] |}.
Proof. split; vm_compute; reflexivity. Qed.

End Token.

(** Linear arithmetic with division and remainder by constants. *)
Ltac euclid := Z.to_euclidean_division_equations; lia.

(* ================================================================== *)
(** * Facts about strings *)

Module StringFacts.

Lemma append_empty (s : string) : s ++ "" = s.
Proof. induction s as [|c s IH]; simpl; [| rewrite IH]; reflexivity. Qed.

Lemma append_assoc (a b c : string) : (a ++ b) ++ c = a ++ (b ++ c).
Proof. induction a as [|x a IH]; simpl; [| rewrite IH]; reflexivity. Qed.

Lemma length_append (a b : string) :
  String.length (a ++ b) = String.length a + String.length b.
Proof. induction a as [|x a IH]; simpl; [| rewrite IH]; reflexivity. Qed.

End StringFacts.

(* ================================================================== *)
(** * The instance: Base64 *)

Module Base64Facts.
Import Base64.
Local Open Scope N_scope.

Lemma sextets_checked :
  forallb sextet_ok (map N.of_nat (seq 0 64)) = true.
Proof. vm_compute. reflexivity. Qed.

Lemma sextet_of_char_of (n : N) :
  n < 64 ->
  sextet_of (char_of n) = Some n /\ Ascii.eqb (char_of n) pad = false.
Proof.
  intros Hn.
  assert (Hin : In n (map N.of_nat (seq 0 64))).
  { apply in_map_iff. exists (N.to_nat n). split; [apply N2Nat.id |].
    apply in_seq. lia. }
  pose proof (proj1 (forallb_forall _ _) sextets_checked n Hin) as Hok.
  unfold sextet_ok in Hok.
  destruct (sextet_of (char_of n)) as [m|]; [| discriminate].
  apply andb_prop in Hok. destruct Hok as [Hm Hpad].
  apply N.eqb_eq in Hm. apply negb_true_iff in Hpad. now subst m.
Qed.

Lemma byte_bound (c : ascii) : byte c < 256.
Proof. apply N_ascii_bounded. Qed.

Lemma sextets_cons (n : N) (s : string) :
  n < 64 -> sextets (String (char_of n) s) = n :: sextets s.
Proof.
  intros Hn. destruct (sextet_of_char_of n Hn) as [Hs Hp].
  simpl. now rewrite Hp, Hs.
Qed.

Lemma sextets_pad (s : string) : sextets (String pad s) = [].
Proof. reflexivity. Qed.


Lemma group_bounds (a b c : N) :
  a < 256 -> b < 256 -> c < 256 ->
  a / 4 < 64 /\ (a mod 4) * 16 + b / 16 < 64
  /\ (b mod 16) * 4 + c / 64 < 64 /\ c mod 64 < 64
  /\ (a mod 4) * 16 < 64 /\ (b mod 16) * 4 < 64.
Proof. intros Ha Hb Hc. zify. euclid. Qed.

Lemma group_first (a b : N) :
  a < 256 -> b < 256 -> a / 4 * 4 + ((a mod 4) * 16 + b / 16) / 16 = a.
Proof. intros Ha Hb. zify. euclid. Qed.

Lemma group_second (a b c : N) :
  a < 256 -> b < 256 -> c < 256 ->
  (((a mod 4) * 16 + b / 16) mod 16) * 16 + ((b mod 16) * 4 + c / 64) / 4 = b.
Proof. intros Ha Hb Hc. zify. euclid. Qed.

Lemma group_third (b c : N) :
  b < 256 -> c < 256 ->
  (((b mod 16) * 4 + c / 64) mod 4) * 64 + c mod 64 = c.
Proof. intros Hb Hc. zify. euclid. Qed.

Lemma ascii_of_byte (c : ascii) : ascii_of_N (byte c) = c.
Proof. apply ascii_N_embedding. Qed.

(** Decoding what was encoded gives the bytes back. *)
Lemma decode_encode (s : string) : decode (encode s) = s.
Proof.
  unfold decode.
  assert (H : forall n s, (String.length s <= n)%nat ->
                          bytes (sextets (encode s)) = s).
  { clear s. induction n as [|n IH]; intros s Hlen.
    - destruct s; [reflexivity | simpl in Hlen; lia].
    - destruct s as [|a [|b [|c s]]]; [reflexivity | | |].
      + pose proof (byte_bound a) as Ha.
        destruct (group_bounds (byte a) 0 0 Ha) as (H1 & _ & _ & _ & H2 & _);
          try lia.
        cbn [encode]. rewrite !sextets_cons, sextets_pad by assumption.
        cbn [bytes]. f_equal.
        rewrite <- (ascii_of_byte a) at 3. f_equal.
        pose proof (group_first (byte a) 0 Ha). 
        replace ((byte a mod 4 * 16 + 0 / 16) / 16) with ((byte a mod 4 * 16) / 16) in H
          by (f_equal; zify; euclid).
        apply H. lia.
      + pose proof (byte_bound a) as Ha. pose proof (byte_bound b) as Hb.
        destruct (group_bounds (byte a) (byte b) 0 Ha Hb)
          as (H1 & H2 & _ & _ & _ & H3); try lia.
        cbn [encode]. rewrite !sextets_cons, sextets_pad by assumption.
        cbn [bytes]. f_equal; [| f_equal].
        * rewrite <- (ascii_of_byte a) at 3. f_equal.
          now apply group_first.
        * rewrite <- (ascii_of_byte b) at 3. f_equal.
          pose proof (group_second (byte a) (byte b) 0 Ha Hb).
          zify. euclid.
      + pose proof (byte_bound a) as Ha. pose proof (byte_bound b) as Hb.
        pose proof (byte_bound c) as Hc.
        destruct (group_bounds (byte a) (byte b) (byte c) Ha Hb Hc)
          as (H1 & H2 & H3 & H4 & _ & _).
        cbn [encode]. rewrite !sextets_cons by assumption.
        cbn [bytes]. rewrite IH by (simpl in Hlen; lia).
        f_equal; [| f_equal; [| f_equal]].
        * rewrite <- (ascii_of_byte a) at 3. f_equal.
          now apply group_first.
        * rewrite <- (ascii_of_byte b) at 3. f_equal.
          now apply group_second.
        * rewrite <- (ascii_of_byte c) at 3. f_equal.
          now apply group_third. }
  now apply (H (String.length s)).
Qed.

End Base64Facts.

(* ================================================================== *)
(** * The instance: UTF-8 *)

Module Utf8Facts.
Import StringFacts Utf8.

(** Induction along the sequences of a well-formed text. *)
Lemma valid_ind (P : string -> Prop) :
  P "" ->
  (forall c s, ascii7 c = true -> valid s = true -> P s -> P (String c s)) ->
  (forall c1 c2 s,
     ascii7 c1 = false -> lead_of c1 = Some Lead2 ->
     continuation c2 = true ->
     valid s = true -> P s -> P (String c1 (String c2 s))) ->
  (forall c1 c2 c3 lo hi s,
     ascii7 c1 = false -> lead_of c1 = Some (Lead3 lo hi) ->
     between lo hi c2 = true -> continuation c3 = true ->
     valid s = true -> P s -> P (String c1 (String c2 (String c3 s)))) ->
  (forall c1 c2 c3 c4 lo hi s,
     ascii7 c1 = false -> lead_of c1 = Some (Lead4 lo hi) ->
     between lo hi c2 = true -> continuation c3 = true ->
     continuation c4 = true ->
     valid s = true -> P s ->
     P (String c1 (String c2 (String c3 (String c4 s))))) ->
  forall s, valid s = true -> P s.
Proof.
  intros Hnil H1 H2 H3 H4 s.
  assert (H : forall n s, String.length s <= n -> valid s = true -> P s).
  { clear s. induction n as [|n IH]; intros s Hlen Hv.
    - destruct s; [exact Hnil | simpl in Hlen; lia].
    - destruct s as [|c1 s]; [exact Hnil |].
      simpl in Hlen. simpl in Hv.
      destruct (ascii7 c1) eqn:E1.
      + apply H1; trivial. apply IH; [lia | trivial].
      + destruct (lead_of c1) as [[|lo hi|lo hi]|] eqn:El; [| | | discriminate].
        * destruct s as [|c2 s]; [discriminate |].
          apply andb_prop in Hv. destruct Hv as [Hc2 Hv].
          simpl in Hlen. apply H2; trivial. apply IH; [lia | trivial].
        * destruct s as [|c2 [|c3 s]]; try discriminate.
          apply andb_prop in Hv. destruct Hv as [Hv Hs].
          apply andb_prop in Hv. destruct Hv as [Hc2 Hc3].
          simpl in Hlen. apply (H3 _ _ _ lo hi); trivial.
          apply IH; [lia | trivial].
        * destruct s as [|c2 [|c3 [|c4 s]]]; try discriminate.
          apply andb_prop in Hv. destruct Hv as [Hv Hs].
          apply andb_prop in Hv. destruct Hv as [Hv Hc4].
          apply andb_prop in Hv. destruct Hv as [Hc2 Hc3].
          simpl in Hlen. apply (H4 _ _ _ _ lo hi); trivial.
          apply IH; [lia | trivial]. }
  apply (H (String.length s)). lia.
Qed.

Lemma decode_ascii (c : ascii) (s : string) :
  ascii7 c = true -> decode (String c s) = String c (decode s).
Proof. intros E. simpl. now rewrite E. Qed.

Lemma decode_two (c1 c2 : ascii) (s : string) :
  ascii7 c1 = false -> lead_of c1 = Some Lead2 -> continuation c2 = true ->
  decode (String c1 (String c2 s)) = String c1 (String c2 (decode s)).
Proof.
  intros E1 El E2. change (decode (String c1 (String c2 s)))
    with (if ascii7 c1 then String c1 (decode (String c2 s))
          else match lead_of c1 with
               | Some Lead2 =>
                   if continuation c2 then String c1 (String c2 (decode s))
                   else replacement ++ decode (String c2 s)
               | Some (Lead3 lo hi) =>
                   if between lo hi c2 then
                     match s with
                     | String c3 s3 =>
                         if continuation c3
                         then String c1 (String c2 (String c3 (decode s3)))
                         else replacement ++ decode s
                     | "" => replacement
                     end
                   else replacement ++ decode (String c2 s)
               | Some (Lead4 lo hi) =>
                   if between lo hi c2 then
                     match s with
                     | String c3 s3 =>
                         if continuation c3 then
                           match s3 with
                           | String c4 s4 =>
                               if continuation c4
                               then String c1 (String c2 (String c3
                                      (String c4 (decode s4))))
                               else replacement ++ decode s3
                           | "" => replacement
                           end
                         else replacement ++ decode s
                     | "" => replacement
                     end
                   else replacement ++ decode (String c2 s)
               | None => replacement ++ decode (String c2 s)
               end).
  now rewrite E1, El, E2.
Qed.

Lemma decode_three (c1 c2 c3 : ascii) (lo hi : N) (s : string) :
  ascii7 c1 = false -> lead_of c1 = Some (Lead3 lo hi) ->
  between lo hi c2 = true -> continuation c3 = true ->
  decode (String c1 (String c2 (String c3 s)))
  = String c1 (String c2 (String c3 (decode s))).
Proof.
  intros E1 El E2 E3.
  change (decode (String c1 (String c2 (String c3 s))))
    with (if ascii7 c1 then String c1 (decode (String c2 (String c3 s)))
          else match lead_of c1 with
               | Some Lead2 =>
                   if continuation c2
                   then String c1 (String c2 (decode (String c3 s)))
                   else replacement ++ decode (String c2 (String c3 s))
               | Some (Lead3 lo hi) =>
                   if between lo hi c2 then
                     if continuation c3
                     then String c1 (String c2 (String c3 (decode s)))
                     else replacement ++ decode (String c3 s)
                   else replacement ++ decode (String c2 (String c3 s))
               | Some (Lead4 lo hi) =>
                   if between lo hi c2 then
                     if continuation c3 then
                       match s with
                       | String c4 s4 =>
                           if continuation c4
                           then String c1 (String c2 (String c3
                                  (String c4 (decode s4))))
                           else replacement ++ decode s
                       | "" => replacement
                       end
                     else replacement ++ decode (String c3 s)
                   else replacement ++ decode (String c2 (String c3 s))
               | None => replacement ++ decode (String c2 (String c3 s))
               end).
  now rewrite E1, El, E2, E3.
Qed.

Lemma decode_four (c1 c2 c3 c4 : ascii) (lo hi : N) (s : string) :
  ascii7 c1 = false -> lead_of c1 = Some (Lead4 lo hi) ->
  between lo hi c2 = true -> continuation c3 = true ->
  continuation c4 = true ->
  decode (String c1 (String c2 (String c3 (String c4 s))))
  = String c1 (String c2 (String c3 (String c4 (decode s)))).
Proof.
  intros E1 El E2 E3 E4.
  change (decode (String c1 (String c2 (String c3 (String c4 s)))))
    with (if ascii7 c1
          then String c1 (decode (String c2 (String c3 (String c4 s))))
          else match lead_of c1 with
               | Some Lead2 =>
                   if continuation c2
                   then String c1 (String c2 (decode (String c3 (String c4 s))))
                   else replacement
                        ++ decode (String c2 (String c3 (String c4 s)))
               | Some (Lead3 lo hi) =>
                   if between lo hi c2 then
                     if continuation c3
                     then String c1 (String c2 (String c3
                            (decode (String c4 s))))
                     else replacement ++ decode (String c3 (String c4 s))
                   else replacement
                        ++ decode (String c2 (String c3 (String c4 s)))
               | Some (Lead4 lo hi) =>
                   if between lo hi c2 then
                     if continuation c3 then
                       if continuation c4
                       then String c1 (String c2 (String c3
                              (String c4 (decode s))))
                       else replacement ++ decode (String c4 s)
                     else replacement ++ decode (String c3 (String c4 s))
                   else replacement
                        ++ decode (String c2 (String c3 (String c4 s)))
               | None =>
                   replacement ++ decode (String c2 (String c3 (String c4 s)))
               end).
  now rewrite E1, El, E2, E3, E4.
Qed.

(** Decoding leaves a well-formed prefix as it is. *)
Lemma decode_valid_prefix (s : string) :
  valid s = true -> forall rest, decode (s ++ rest) = s ++ decode rest.
Proof.
  intros Hv. pattern s. revert s Hv. apply valid_ind.
  - reflexivity.
  - intros c s E1 _ IH rest. cbn [append].
    now rewrite (decode_ascii _ _ E1), IH.
  - intros c1 c2 s E1 El E2 _ IH rest. cbn [append].
    now rewrite (decode_two _ _ _ E1 El E2), IH.
  - intros c1 c2 c3 lo hi s E1 El E2 E3 _ IH rest. cbn [append].
    now rewrite (decode_three _ _ _ _ _ _ E1 El E2 E3), IH.
  - intros c1 c2 c3 c4 lo hi s E1 El E2 E3 E4 _ IH rest. cbn [append].
    now rewrite (decode_four _ _ _ _ _ _ _ E1 El E2 E3 E4), IH.
Qed.

Lemma decode_valid (s : string) : valid s = true -> decode s = s.
Proof.
  intros Hv. pose proof (decode_valid_prefix s Hv "") as E.
  cbn [decode] in E. now rewrite !append_empty in E.
Qed.

Lemma valid_ascii (c : ascii) (s : string) :
  ascii7 c = true -> valid (String c s) = valid s.
Proof. intros E. simpl. now rewrite E. Qed.

Lemma valid_two (c1 c2 : ascii) (s : string) :
  ascii7 c1 = false -> lead_of c1 = Some Lead2 -> continuation c2 = true ->
  valid (String c1 (String c2 s)) = valid s.
Proof.
  intros E1 El E2.
  change (valid (String c1 (String c2 s)))
    with (if ascii7 c1 then valid (String c2 s)
          else match lead_of c1 with
               | Some Lead2 => continuation c2 && valid s
               | Some (Lead3 lo hi) =>
                   match s with
                   | String c3 s3 =>
                       between lo hi c2 && continuation c3 && valid s3
                   | "" => false
                   end
               | Some (Lead4 lo hi) =>
                   match s with
                   | String c3 (String c4 s4) =>
                       between lo hi c2 && continuation c3 && continuation c4
                       && valid s4
                   | _ => false
                   end
               | None => false
               end).
  now rewrite E1, El, E2.
Qed.

Lemma valid_three (c1 c2 c3 : ascii) (lo hi : N) (s : string) :
  ascii7 c1 = false -> lead_of c1 = Some (Lead3 lo hi) ->
  between lo hi c2 = true -> continuation c3 = true ->
  valid (String c1 (String c2 (String c3 s))) = valid s.
Proof.
  intros E1 El E2 E3.
  change (valid (String c1 (String c2 (String c3 s))))
    with (if ascii7 c1 then valid (String c2 (String c3 s))
          else match lead_of c1 with
               | Some Lead2 => continuation c2 && valid (String c3 s)
               | Some (Lead3 lo hi) =>
                   between lo hi c2 && continuation c3 && valid s
               | Some (Lead4 lo hi) =>
                   match s with
                   | String c4 s4 =>
                       between lo hi c2 && continuation c3 && continuation c4
                       && valid s4
                   | _ => false
                   end
               | None => false
               end).
  now rewrite E1, El, E2, E3.
Qed.

Lemma valid_four (c1 c2 c3 c4 : ascii) (lo hi : N) (s : string) :
  ascii7 c1 = false -> lead_of c1 = Some (Lead4 lo hi) ->
  between lo hi c2 = true -> continuation c3 = true ->
  continuation c4 = true ->
  valid (String c1 (String c2 (String c3 (String c4 s)))) = valid s.
Proof.
  intros E1 El E2 E3 E4.
  change (valid (String c1 (String c2 (String c3 (String c4 s)))))
    with (if ascii7 c1 then valid (String c2 (String c3 (String c4 s)))
          else match lead_of c1 with
               | Some Lead2 =>
                   continuation c2 && valid (String c3 (String c4 s))
               | Some (Lead3 lo hi) =>
                   between lo hi c2 && continuation c3 && valid (String c4 s)
               | Some (Lead4 lo hi) =>
                   between lo hi c2 && continuation c3 && continuation c4
                   && valid s
               | None => false
               end).
  now rewrite E1, El, E2, E3, E4.
Qed.

Lemma valid_app (a b : string) :
  valid a = true -> valid b = true -> valid (a ++ b) = true.
Proof.
  intros Ha Hb. pattern a. revert a Ha. apply valid_ind.
  - exact Hb.
  - intros c s E1 _ IH. cbn [append]. now rewrite (valid_ascii _ _ E1).
  - intros c1 c2 s E1 El E2 _ IH. cbn [append].
    now rewrite (valid_two _ _ _ E1 El E2).
  - intros c1 c2 c3 lo hi s E1 El E2 E3 _ IH. cbn [append].
    now rewrite (valid_three _ _ _ _ _ _ E1 El E2 E3).
  - intros c1 c2 c3 c4 lo hi s E1 El E2 E3 E4 _ IH. cbn [append].
    now rewrite (valid_four _ _ _ _ _ _ _ E1 El E2 E3 E4).
Qed.

Lemma plain_valid (s : string) : plain s = true -> valid s = true.
Proof.
  induction s as [|c s IH]; simpl; [reflexivity |].
  intros H. apply andb_prop in H. destruct H as [Hc Hs].
  rewrite Hc. auto.
Qed.

Lemma plain_app (a b : string) :
  plain a = true -> plain b = true -> plain (a ++ b) = true.
Proof.
  induction a as [|c a IH]; simpl; [auto |].
  intros H Hb. apply andb_prop in H. destruct H as [Hc Ha].
  rewrite Hc. auto.
Qed.

End Utf8Facts.

(* ================================================================== *)
(** * The instance: dates *)

Module IsoDateFacts.
Import StringFacts IsoDate.
Local Open Scope Z_scope.


Lemma all_from_spec (ok : Z -> bool) (n : nat) :
  forall from,
    all_from n from ok = true ->
    forall i, from <= i < from + Z.of_nat n -> ok i = true.
Proof.
  induction n as [|n IH]; intros from H i Hi; [lia |].
  simpl in H. apply andb_prop in H. destruct H as [H0 H].
  destruct (Z.eq_dec i from) as [-> | Hne]; [exact H0 |].
  apply (IH (from + 1)); [exact H | lia].
Qed.

Lemma digits_checked : all_from 10 0 digit_ok = true.
Proof. reflexivity. Qed.

Lemma digit_value_digit (n : Z) :
  0 <= n <= 9 ->
  digit_value (digit n) = Some n
  /\ Ascii.eqb (digit n) "+" = false /\ Ascii.eqb (digit n) "-" = false
  /\ Utf8.ascii7 (digit n) = true.
Proof.
  intros Hn.
  pose proof (all_from_spec digit_ok 10 0 digits_checked n ltac:(lia)) as H.
  unfold digit_ok in H.
  destruct (digit_value (digit n)) as [m|]; [| discriminate].
  repeat (apply andb_prop in H; destruct H as [H ?]).
  apply Z.eqb_eq in H. subst m.
  repeat split; trivial; now apply negb_true_iff.
Qed.

Lemma digits_padded (w : nat) :
  forall n acc rest,
    0 <= n < 10 ^ Z.of_nat w ->
    digits w acc (padded w n ++ rest) = Some (acc * 10 ^ Z.of_nat w + n, rest).
Proof.
  induction w as [|w IH]; intros n acc rest Hn.
  - simpl in *. f_equal. f_equal. lia.
  - rewrite Nat2Z.inj_succ, Z.pow_succ_r in * by lia.
    assert (Hpos : 0 < 10 ^ Z.of_nat w) by (apply Z.pow_pos_nonneg; lia).
    assert (Hq : 0 <= n / 10 ^ Z.of_nat w <= 9).
    { split; [apply Z.div_pos; lia |].
      assert (n / 10 ^ Z.of_nat w < 10); [| lia].
      apply Z.div_lt_upper_bound; lia. }
    cbn [padded append digits].
    destruct (digit_value_digit _ Hq) as (-> & _ & _ & _).
    rewrite IH by (apply Z.mod_pos_bound; lia).
    f_equal. f_equal.
    pose proof (Z.div_mod n (10 ^ Z.of_nat w)). nia.
Qed.

(** The year of a day of the period, and the day of that year. *)
Lemma year_of_period (doe : Z) :
  0 <= doe < 146097 ->
  let yoe := (doe - doe / 1460 + doe / 36524 - doe / 146096) / 365 in
  0 <= yoe <= 399 /\ 0 <= doe - (365 * yoe + yoe / 4 - yoe / 100) <= 365.
Proof. intros H yoe. subst yoe. euclid. Qed.

(** The month of a day of the year, counted from March, and the day of
    that month. *)
Lemma month_of_year (doy : Z) :
  0 <= doy <= 365 ->
  let mp := (5 * doy + 2) / 153 in
  0 <= mp <= 11 /\ 1 <= doy - (153 * mp + 2) / 5 + 1 <= 31.
Proof. intros H mp. subst mp. euclid. Qed.

(** [to_doe] is a left inverse of [from_doe] on one period. *)
Lemma from_doe_spec (doe : Z) :
  0 <= doe < 146097 ->
  exists yoe m d,
    from_doe doe = (yoe, m, d)
    /\ 0 <= yoe <= 399 /\ 1 <= m <= 12 /\ 1 <= d <= 31
    /\ to_doe yoe m d = doe.
Proof.
  intros Hdoe. unfold from_doe.
  destruct (year_of_period doe Hdoe) as [Hyoe Hdoy].
  set (yoe := (doe - doe / 1460 + doe / 36524 - doe / 146096) / 365) in *.
  set (doy := doe - (365 * yoe + yoe / 4 - yoe / 100)) in *.
  destruct (month_of_year doy Hdoy) as [Hmp Hd].
  set (mp := (5 * doy + 2) / 153) in *.
  eexists _, _, _. split; [reflexivity |].
  split; [exact Hyoe |].
  split; [destruct (Z.ltb_spec mp 10); lia |].
  split; [exact Hd |].
  unfold to_doe.
  replace (if Z.ltb 2 (if Z.ltb mp 10 then mp + 3 else mp - 9)
           then (if Z.ltb mp 10 then mp + 3 else mp - 9) - 3
           else (if Z.ltb mp 10 then mp + 3 else mp - 9) + 9) with mp.
  - subst doy. lia.
  - destruct (Z.ltb_spec mp 10) as [H | H];
      [destruct (Z.ltb_spec 2 (mp + 3)) | destruct (Z.ltb_spec 2 (mp - 9))];
      lia.
Qed.

(** [days] is a left inverse of [civil]. *)
Lemma civil_spec (day : Z) :
  exists y m d,
    civil day = (y, m, d)
    /\ 1 <= m <= 12 /\ 1 <= d <= 31
    /\ ((day + 719468) / 146097) * 400 <= y
       <= ((day + 719468) / 146097) * 400 + 400
    /\ days y m d = day.
Proof.
  unfold civil.
  destruct (from_doe_spec ((day + 719468) mod 146097))
    as (yoe & m & d & -> & Hy & Hm & Hd & Hdoe).
  { apply Z.mod_pos_bound. lia. }
  eexists _, m, d. split; [reflexivity |].
  split; [trivial |]. split; [trivial |].
  split; [destruct (Z.leb m 2); lia |].
  unfold days.
  set (era := (day + 719468) / 146097) in *.
  replace (if Z.leb m 2
           then yoe + era * 400 + (if Z.leb m 2 then 1 else 0) - 1
           else yoe + era * 400 + (if Z.leb m 2 then 1 else 0))
    with (yoe + era * 400) by (destruct (Z.leb m 2); lia).
  replace ((yoe + era * 400) / 400) with era by euclid.
  replace ((yoe + era * 400) mod 400) with yoe by euclid.
  rewrite Hdoe. subst era. euclid.
Qed.

Lemma year_year_string (y : Z) (rest : string) :
  - 1000000 < y < 1000000 ->
  year (year_string y ++ rest) = Some (y, rest).
Proof.
  intros Hy. unfold year_string.
  destruct (Z.leb 0 y && Z.leb y 9999) eqn:E.
  - apply andb_prop in E. destruct E as [E0 E1].
    apply Z.leb_le in E0, E1.
    assert (Hq : 0 <= y / 10 ^ 3 <= 9) by (change (10 ^ 3) with 1000; euclid).
    destruct (digit_value_digit _ Hq) as (_ & Hplus & Hminus & _).
    pose proof (digits_padded 4 y 0 rest) as Hd.
    change (padded 4 y)
      with (String (digit (y / 10 ^ 3)) (padded 3 (y mod 10 ^ 3))) in *.
    cbn [append] in *. unfold year. rewrite Hplus, Hminus.
    rewrite Hd by (change (10 ^ Z.of_nat 4) with 10000; lia).
    f_equal.
  - assert (Hout : y < 0 \/ 9999 < y).
    { apply andb_false_iff in E. destruct E as [E | E];
        apply Z.leb_gt in E; lia. }
    cbn [append]. unfold year.
    destruct (Z.ltb y 0) eqn:Hneg.
    + apply Z.ltb_lt in Hneg. cbn -[padded digits Z.abs Z.pow].
      rewrite (digits_padded 6 (Z.abs y) 0 rest)
        by (change (10 ^ Z.of_nat 6) with 1000000; lia).
      replace (0 * 10 ^ Z.of_nat 6 + Z.abs y) with (- y) by lia.
      destruct (Z.eqb_spec (- y) 0); [lia |]. f_equal. f_equal. lia.
    + apply Z.ltb_ge in Hneg. cbn -[padded digits Z.abs Z.pow].
      rewrite (digits_padded 6 (Z.abs y) 0 rest)
        by (change (10 ^ Z.of_nat 6) with 1000000; lia).
      f_equal. f_equal. lia.
Qed.

Lemma two_digits (n : Z) (rest : string) :
  0 <= n <= 99 -> digits 2 0 (padded 2 n ++ rest) = Some (n, rest).
Proof.
  intros Hn. rewrite digits_padded by (change (10 ^ Z.of_nat 2) with 100; lia).
  reflexivity.
Qed.

Lemma three_digits (n : Z) (rest : string) :
  0 <= n <= 999 -> digits 3 0 (padded 3 n ++ rest) = Some (n, rest).
Proof.
  intros Hn.
  rewrite digits_padded by (change (10 ^ Z.of_nat 3) with 1000; lia).
  reflexivity.
Qed.

(** The time of day is made of its hours, minutes, seconds and
    milliseconds. *)
Lemma clock_decomposition (ms : Z) :
  ms / 3600000 * 3600000 + (ms / 60000) mod 60 * 60000
  + (ms / 1000) mod 60 * 1000 + ms mod 1000 = ms.
Proof.
  pose proof (Z.div_mod ms 1000 ltac:(lia)) as H1.
  pose proof (Z.div_mod (ms / 1000) 60 ltac:(lia)) as H2.
  pose proof (Z.div_mod (ms / 60000) 60 ltac:(lia)) as H3.
  rewrite Z.div_div in H2 by lia. change (1000 * 60) with 60000 in H2.
  rewrite Z.div_div in H3 by lia. change (60000 * 60) with 3600000 in H3.
  lia.
Qed.

Lemma clock_bounds (ms : Z) :
  0 <= ms < 86400000 ->
  0 <= ms / 3600000 <= 23 /\ 0 <= (ms / 60000) mod 60 <= 59
  /\ 0 <= (ms / 1000) mod 60 <= 59 /\ 0 <= ms mod 1000 <= 999.
Proof.
  intros Hms.
  pose proof (Z.mod_pos_bound (ms / 60000) 60 ltac:(lia)).
  pose proof (Z.mod_pos_bound (ms / 1000) 60 ltac:(lia)).
  pose proof (Z.mod_pos_bound ms 1000 ltac:(lia)).
  assert (0 <= ms / 3600000 <= 23) by euclid.
  lia.
Qed.

(** The year of a time value in range takes at most six digits. *)
Lemma year_bounds (t y : Z) :
  Z.abs t <= 8640000000000000 ->
  (t / 86400000 + 719468) / 146097 * 400 <= y
  <= (t / 86400000 + 719468) / 146097 * 400 + 400 ->
  - 1000000 < y < 1000000.
Proof.
  intros Ht Hy.
  assert (Hday : - 100000000 <= t / 86400000 <= 100000000) by euclid.
  assert (Hera : - 680 <= (t / 86400000 + 719468) / 146097 <= 690).
  { generalize dependent (t / 86400000). intros day _ Hday. euclid. }
  lia.
Qed.

(** [parse] on a text made of seven fields, each of which is read back. *)
Lemma parse_fields (Y M D H MI S MS : string) (y m d h mi sec ms : Z) :
  (forall r, year (Y ++ r) = Some (y, r)) ->
  (forall r, digits 2 0 (M ++ r) = Some (m, r)) ->
  (forall r, digits 2 0 (D ++ r) = Some (d, r)) ->
  (forall r, digits 2 0 (H ++ r) = Some (h, r)) ->
  (forall r, digits 2 0 (MI ++ r) = Some (mi, r)) ->
  (forall r, digits 2 0 (S ++ r) = Some (sec, r)) ->
  (forall r, digits 3 0 (MS ++ r) = Some (ms, r)) ->
  parse (Y ++ "-" ++ M ++ "-" ++ D ++ "T" ++ H ++ ":" ++ MI ++ ":" ++ S
         ++ "." ++ MS ++ "Z")
  = if Z.leb 1 m && Z.leb m 12 && Z.leb 1 d && Z.leb d 31
       && (Z.leb h 23 || (Z.eqb h 24 && Z.eqb mi 0 && Z.eqb sec 0
                          && Z.eqb ms 0))
       && Z.leb mi 59 && Z.leb sec 59
    then
      let t := days y m d * 86400000
               + h * 3600000 + mi * 60000 + sec * 1000 + ms in
      if in_range t then Some t else None
    else None.
Proof.
  intros HY HM HD HH HMI HS HMS. unfold parse.
  rewrite HY. cbn [append expect Ascii.eqb Bool.eqb].
  rewrite HM. cbn [append expect Ascii.eqb Bool.eqb].
  rewrite HD. cbn [append expect Ascii.eqb Bool.eqb].
  rewrite HH. cbn [append expect Ascii.eqb Bool.eqb].
  rewrite HMI. cbn [append expect Ascii.eqb Bool.eqb].
  rewrite HS. cbn [append expect Ascii.eqb Bool.eqb].
  rewrite HMS. cbn [append expect Ascii.eqb Bool.eqb].
  reflexivity.
Qed.

Lemma leb_of_le (a b : Z) : a <= b -> Z.leb a b = true.
Proof. apply Z.leb_le. Qed.

(** The text of a date and a time of day, read back. *)
Lemma parse_written (y m d ms t : Z) :
  - 1000000 < y < 1000000 -> 1 <= m <= 12 -> 1 <= d <= 31 ->
  0 <= ms < 86400000 ->
  days y m d * 86400000 + ms = t ->
  in_range t = true ->
  parse (year_string y ++ "-" ++ padded 2 m ++ "-" ++ padded 2 d
         ++ "T" ++ padded 2 (ms / 3600000)
         ++ ":" ++ padded 2 ((ms / 60000) mod 60)
         ++ ":" ++ padded 2 ((ms / 1000) mod 60)
         ++ "." ++ padded 3 (ms mod 1000) ++ "Z")
  = Some t.
Proof.
  intros Hy Hm Hd Hms Ht Hrange.
  destruct (clock_bounds ms Hms) as (Hh & Hmi & Hs & Hmilli).
  pose proof (clock_decomposition ms) as Hclock.
  rewrite (parse_fields _ _ _ _ _ _ _ y m d (ms / 3600000)
             ((ms / 60000) mod 60) ((ms / 1000) mod 60) (ms mod 1000)).
  - rewrite !leb_of_le by lia. cbn [andb orb]. cbv zeta.
    replace (days y m d * 86400000 + ms / 3600000 * 3600000
             + (ms / 60000) mod 60 * 60000 + (ms / 1000) mod 60 * 1000
             + ms mod 1000) with t; [now rewrite Hrange |].
    rewrite <- !Z.add_assoc. rewrite <- !Z.add_assoc in Hclock.
    now rewrite Hclock.
  - intros r. now apply year_year_string.
  - intros r. apply two_digits. lia.
  - intros r. apply two_digits. lia.
  - intros r. apply two_digits. lia.
  - intros r. apply two_digits. lia.
  - intros r. apply two_digits. lia.
  - intros r. apply three_digits. lia.
Qed.

(** The text of a time value whose calendar date is known. *)
Lemma toISOString_civil (t y m d : Z) :
  civil (t / 86400000) = (y, m, d) ->
  toISOString t
  = year_string y ++ "-" ++ padded 2 m ++ "-" ++ padded 2 d
    ++ "T" ++ padded 2 (t mod 86400000 / 3600000)
    ++ ":" ++ padded 2 ((t mod 86400000 / 60000) mod 60)
    ++ ":" ++ padded 2 ((t mod 86400000 / 1000) mod 60)
    ++ "." ++ padded 3 ((t mod 86400000) mod 1000) ++ "Z".
Proof. intros Hc. unfold toISOString. now rewrite Hc. Qed.

(** A time value is its day and its time of day. *)
Lemma days_time_of_day (t y m d : Z) :
  days y m d = t / 86400000 ->
  days y m d * 86400000 + t mod 86400000 = t.
Proof.
  intros Hdays. rewrite Hdays, Z.mul_comm. symmetry. now apply Z.div_mod.
Qed.

Lemma time_of_day_bounds (t : Z) : 0 <= t mod 86400000 < 86400000.
Proof. now apply Z.mod_pos_bound. Qed.

(** The round trip of a time value whose calendar date is known. *)
Lemma parse_toISOString_civil (t y m d : Z) :
  in_range t = true ->
  civil (t / 86400000) = (y, m, d) ->
  - 1000000 < y < 1000000 -> 1 <= m <= 12 -> 1 <= d <= 31 ->
  days y m d = t / 86400000 ->
  parse (toISOString t) = Some t.
Proof.
  intros Hrange Hc Hy Hm Hd Hdays.
  rewrite (toISOString_civil t y m d Hc).
  exact (parse_written y m d (t mod 86400000) t Hy Hm Hd (time_of_day_bounds t)
           (days_time_of_day t y m d Hdays) Hrange).
Qed.

(** Reading back what [toISOString] wrote gives the time value. *)
Lemma parse_toISOString (t : Z) :
  in_range t = true -> parse (toISOString t) = Some t.
Proof.
  intros Hrange.
  destruct (civil_spec (t / 86400000))
    as (y & m & d & Hc & Hm & Hd & Hy & Hdays).
  refine (parse_toISOString_civil t y m d Hrange Hc _ Hm Hd Hdays).
  refine (year_bounds t y _ Hy).
  exact (proj1 (Z.leb_le _ _) Hrange).
Qed.

End IsoDateFacts.

Module IsoDateText.
Import IsoDate IsoDateFacts.
Local Open Scope Z_scope.

Lemma digit_plain (n : Z) : 0 <= n <= 9 -> Utf8.ascii7 (digit n) = true.
Proof. intros Hn. now destruct (digit_value_digit n Hn) as (_ & _ & _ & H). Qed.

Lemma padded_plain (w : nat) :
  forall n, 0 <= n < 10 ^ Z.of_nat w -> Utf8.plain (padded w n) = true.
Proof.
  induction w as [|w IH]; intros n Hn; [reflexivity |].
  rewrite Nat2Z.inj_succ, Z.pow_succ_r in Hn by lia.
  assert (Hpos : 0 < 10 ^ Z.of_nat w) by (apply Z.pow_pos_nonneg; lia).
  cbn [padded Utf8.plain]. rewrite digit_plain, IH; [reflexivity | |].
  - apply Z.mod_pos_bound. lia.
  - split; [apply Z.div_pos; lia |].
    assert (n / 10 ^ Z.of_nat w < 10); [| lia].
    apply Z.div_lt_upper_bound; lia.
Qed.

Lemma year_string_plain (y : Z) :
  - 1000000 < y < 1000000 -> Utf8.plain (year_string y) = true.
Proof.
  intros Hy. unfold year_string.
  destruct (Z.leb 0 y && Z.leb y 9999) eqn:E.
  - apply andb_prop in E. destruct E as [E0 E1].
    apply Z.leb_le in E0, E1.
    apply padded_plain. change (10 ^ Z.of_nat 4) with 10000. lia.
  - cbn [Utf8.plain]. rewrite padded_plain
      by (change (10 ^ Z.of_nat 6) with 1000000; lia).
    now destruct (Z.ltb y 0).
Qed.

Lemma two_digits_plain (n : Z) : 0 <= n <= 99 -> Utf8.plain (padded 2 n) = true.
Proof.
  intros Hn. apply padded_plain. change (10 ^ Z.of_nat 2) with 100. lia.
Qed.

Lemma written_plain (y m d ms : Z) :
  - 1000000 < y < 1000000 -> 1 <= m <= 12 -> 1 <= d <= 31 ->
  0 <= ms < 86400000 ->
  Utf8.plain
    (year_string y ++ "-" ++ padded 2 m ++ "-" ++ padded 2 d
     ++ "T" ++ padded 2 (ms / 3600000)
     ++ ":" ++ padded 2 ((ms / 60000) mod 60)
     ++ ":" ++ padded 2 ((ms / 1000) mod 60)
     ++ "." ++ padded 3 (ms mod 1000) ++ "Z") = true.
Proof.
  intros Hy Hm Hd Hms.
  destruct (clock_bounds ms Hms) as (Hh & Hmi & Hs & Hmilli).
  repeat (apply Utf8Facts.plain_app;
          [first [ now apply year_string_plain
                 | apply two_digits_plain; lia
                 | reflexivity ] |]).
  apply Utf8Facts.plain_app; [| reflexivity].
  apply padded_plain. change (10 ^ Z.of_nat 3) with 1000. lia.
Qed.

(** The text of a valid date is made of bytes below 128 and is not
    empty. *)
Lemma toISOString_plain (t : Z) :
  in_range t = true ->
  Utf8.plain (toISOString t) = true /\ toISOString t <> "".
Proof.
  intros Hrange.
  destruct (civil_spec (t / 86400000))
    as (y & m & d & Hc & Hm & Hd & Hy & Hdays).
  rewrite (toISOString_civil t y m d Hc).
  pose proof (year_bounds t y (proj1 (Z.leb_le _ _) Hrange) Hy) as Hyear.
  split.
  - exact (written_plain y m d (t mod 86400000) Hyear Hm Hd (time_of_day_bounds t)).
  - unfold year_string.
    destruct (Z.leb 0 y && Z.leb y 9999); discriminate.
Qed.

End IsoDateText.

(* ================================================================== *)
(** * The instance: JSON *)

Module JsonFacts.
Import StringFacts Json.

(** *** Strings *)

Lemma unicode_escape_alone (h1 h2 h3 h4 : ascii) (u : N) (s6 : string) :
  hex4 h1 h2 h3 h4 = Some u ->
  Utf8.is_high_surrogate u = false ->
  string_body (String "\" (String "u" (String h1 (String h2 (String h3
                 (String h4 s6))))))
  = prepend (Utf8.of_unit u) (string_body s6).
Proof.
  intros Hhex Hhigh.
  simpl string_body. rewrite Hhex.
  destruct s6 as [|b [|e [|l1 [|l2 [|l3 [|l4 s12]]]]]]; try reflexivity.
  rewrite Hhigh. simpl. now destruct (hex4 l1 l2 l3 l4).
Qed.

Lemma escape_read (c : ascii) (rest : string) :
  string_body (escape c ++ rest) = prepend (String c "") (string_body rest).
Proof.
  destruct c as [[] [] [] [] [] [] [] []];
    try reflexivity;
    (eapply eq_trans;
     [eapply unicode_escape_alone; reflexivity | reflexivity]).
Qed.
Lemma prepend_Some (x str rest : string) :
  prepend x (Some (str, rest)) = Some (x ++ str, rest).
Proof. reflexivity. Qed.

Lemma string_body_escape_all (s rest : string) :
  string_body (escape_all s ++ String (ascii_of_N 34) rest) = Some (s, rest).
Proof.
  induction s as [|c s IH]; [reflexivity |].
  cbn [escape_all]. rewrite append_assoc, escape_read, IH. reflexivity.
Qed.

Lemma quote_append (s rest : string) :
  quote s ++ rest
  = String (ascii_of_N 34) (escape_all s ++ String (ascii_of_N 34) rest).
Proof. unfold quote. cbn [append]. now rewrite append_assoc. Qed.

(** *** Numbers *)

Lemma follows_cases (rest : string) :
  follows rest = true ->
  rest = ""
  \/ exists c r, rest = String c r
       /\ (N_of_ascii c = 44 \/ N_of_ascii c = 93 \/ N_of_ascii c = 125)%N.
Proof.
  destruct rest as [|c r]; [now left | right].
  exists c, r. split; [reflexivity |].
  unfold follows in H.
  destruct (N.eqb_spec (N_of_ascii c) 44); [tauto |].
  destruct (N.eqb_spec (N_of_ascii c) 93); [tauto |].
  destruct (N.eqb_spec (N_of_ascii c) 125); [tauto | discriminate].
Qed.

Lemma follows_not_number (rest : string) :
  follows rest = true ->
  starts_fraction_or_exponent rest = false
  /\ span_digits rest = ("", rest)
  /\ skip_ws rest = rest.
Proof.
  intros H. destruct (follows_cases rest H) as [-> | (c & r & -> & Hc)];
    [repeat split |].
  unfold starts_fraction_or_exponent, span_digits, skip_ws, is_digit, is_ws.
  destruct Hc as [-> | [-> | ->]]; repeat split.
Qed.

Lemma span_digits_uint (d : Decimal.uint) (rest : string) :
  span_digits rest = ("", rest) ->
  span_digits (NilEmpty.string_of_uint d ++ rest)
  = (NilEmpty.string_of_uint d, rest).
Proof.
  intros Hrest.
  induction d as [|d IH|d IH|d IH|d IH|d IH|d IH|d IH|d IH|d IH|d IH];
    [exact Hrest | ..];
    cbn [NilEmpty.string_of_uint append span_digits];
    change (is_digit _) with true; cbv iota; now rewrite IH.
Qed.

Lemma to_uint_head (p : positive) :
  exists c s,
    NilZero.string_of_uint (Pos.to_uint p) = String c s
    /\ NilEmpty.string_of_uint (Pos.to_uint p) = String c s
    /\ is_digit c = true /\ N.eqb (N_of_ascii c) 48 = false.
Proof.
  pose proof (DecimalPos.Unsigned.to_uint_nonzero p) as Hnz.
  pose proof (DecimalPos.Unsigned.to_of (Pos.to_uint p)) as Hnorm.
  rewrite DecimalPos.Unsigned.of_to in Hnorm. cbn [N.to_uint] in Hnorm.
  destruct (Pos.to_uint p) as [|d|d|d|d|d|d|d|d|d|d] eqn:E;
    try (eexists _, _; repeat split; reflexivity).
  - now elim (DecimalPos.Unsigned.to_uint_nonnil p).
  - exfalso. unfold Decimal.unorm in Hnorm.
    destruct (Decimal.nzhead (Decimal.D0 d)) eqn:En;
      try (symmetry in Hnorm; rewrite <- En in Hnorm;
           now apply DecimalFacts.nzhead_nonzero in Hnorm).
    now apply Hnz.
Qed.

Lemma natural_positive (p : positive) (rest : string) :
  follows rest = true ->
  natural (NilZero.string_of_uint (Pos.to_uint p) ++ rest)
  = Some (Zpos p, rest).
Proof.
  intros Hrest.
  destruct (follows_not_number rest Hrest) as (Hfrac & Hspan & _).
  destruct (to_uint_head p) as (c & s & E0 & E & Hdigit & Hzero).
  pose proof (span_digits_uint (Pos.to_uint p) rest Hspan) as Hs.
  rewrite E0. rewrite E in Hs. cbn [append] in *.
  unfold natural. rewrite Hzero, Hs, <- E0.
  rewrite NilZero.usu by apply DecimalPos.Unsigned.to_uint_nonnil.
  rewrite Hfrac. unfold N.of_uint.
  now rewrite DecimalPos.Unsigned.of_to.
Qed.

Lemma number_text (n : Z) (rest : string) :
  follows rest = true ->
  number (number_to_string n ++ rest) = Some (VNum n, rest).
Proof.
  intros Hrest. unfold number_to_string.
  destruct (follows_not_number rest Hrest) as (Hfrac & _ & _).
  destruct n as [|p|p]; cbn [Z.to_int NilZero.string_of_int].
  - cbn. now rewrite Hfrac.
  - pose proof (natural_positive p rest Hrest) as Hn.
    destruct (to_uint_head p) as (c & s & E0 & _ & Hdigit & _).
    rewrite E0 in *. cbn [append] in *. unfold number.
    replace (N.eqb (N_of_ascii c) 45) with false; [now rewrite Hn |].
    unfold is_digit in Hdigit. apply andb_prop in Hdigit.
    destruct Hdigit as [H1 _]. apply N.leb_le in H1.
    symmetry. apply N.eqb_neq. lia.
  - cbn [append]. unfold number. cbn [N_of_ascii N.eqb].
    change (N.eqb (N_of_ascii "-") 45) with true. cbv iota.
    now rewrite (natural_positive p rest Hrest).
Qed.

(** *** Values *)

Lemma stringify_json (v : value) :
  json v = true -> stringify v = Some (text v).
Proof.
  unfold text. destruct v as [| |b|n|s|t|name|l|ps]; try discriminate;
    intros _; reflexivity.
Qed.

Lemma text_array (l : list value) :
  text (VArr l) = "[" ++ join (map text l) ++ "]".
Proof. reflexivity. Qed.

Lemma text_object (ps : list (string * value)) :
  members_json ps = true ->
  text (VObj ps) = "{" ++ join (map member ps) ++ "}".
Proof.
  intros Hps. unfold text. cbn [stringify]. do 3 f_equal.
  induction ps as [|[k v] ps IH]; [reflexivity |].
  cbn [members_json forallb] in Hps. apply andb_prop in Hps.
  destruct Hps as [Hp Hps]. apply andb_prop in Hp. destruct Hp as [_ Hv].
  cbn [flat_map map snd fst]. rewrite (stringify_json v Hv), IH by exact Hps.
  reflexivity.
Qed.

Lemma text_head (v : value) :
  json v = true -> exists c t, text v = String c t /\ value_start c = true.
Proof.
  destruct v as [| |b|n|s|t|name|l|ps]; try discriminate; intros Hv.
  - now exists "n"%char, "ull".
  - destruct b; [now exists "t"%char, "rue" | now exists "f"%char, "alse"].
  - unfold text. cbn [stringify]. unfold number_to_string.
    destruct n as [|p|p]; cbn [Z.to_int NilZero.string_of_int].
    + now exists "0"%char, "".
    + destruct (to_uint_head p) as (c & t & -> & _ & Hd & _).
      exists c, t. split; [reflexivity |].
      unfold value_start. unfold is_digit in Hd. rewrite Hd.
      now rewrite !orb_true_r.
    + eexists _, _. split; reflexivity.
  - eexists _, _. split; reflexivity.
  - eexists _, _. split; reflexivity.
  - eexists _, _. split; reflexivity.
Qed.

Lemma value_start_skip (c : ascii) (s : string) :
  value_start c = true ->
  skip_ws (String c s) = String c s
  /\ N.eqb (N_of_ascii c) 93 = false /\ N.eqb (N_of_ascii c) 125 = false.
Proof.
  unfold value_start, skip_ws, is_ws. intros H.
  repeat (apply orb_prop in H; destruct H as [H | H]);
    try (apply N.eqb_eq in H; rewrite H; repeat split).
  apply andb_prop in H. destruct H as [H1 H2].
  apply N.leb_le in H1, H2.
  repeat match goal with
         | |- context [N.eqb (N_of_ascii c) ?k] =>
             destruct (N.eqb_spec (N_of_ascii c) k); [lia |]
         end.
  repeat split.
Qed.

Lemma size_positive (v : value) : 1 <= size v.
Proof. destruct v; simpl; lia. Qed.

Lemma number_head (n : Z) :
  exists c t,
    number_to_string n = String c t
    /\ (is_digit c = true \/ N_of_ascii c = 45%N).
Proof.
  unfold number_to_string.
  destruct n as [|p|p]; cbn [Z.to_int NilZero.string_of_int].
  - exists "0"%char, "". now split; [| left].
  - destruct (to_uint_head p) as (c & t & -> & _ & Hd & _).
    exists c, t. now split; [| left].
  - eexists _, _. split; [reflexivity | now right].
Qed.

Lemma value_number (fuel : nat) (c : ascii) (s : string) :
  is_digit c = true \/ N_of_ascii c = 45%N ->
  value_ (S fuel) (String c s) = number (String c s).
Proof.
  intros Hc.
  assert (Hcode : (N_of_ascii c = 45 \/ 48 <= N_of_ascii c <= 57)%N).
  { destruct Hc as [Hd | Hm]; [right | now left].
    unfold is_digit in Hd. apply andb_prop in Hd. destruct Hd as [H1 H2].
    apply N.leb_le in H1, H2. lia. }
  assert (Hws : skip_ws (String c s) = String c s).
  { cbn [skip_ws]. unfold is_ws.
    repeat match goal with
           | |- context [N.eqb (N_of_ascii c) ?k] =>
               destruct (N.eqb_spec (N_of_ascii c) k); [lia |]
           end.
    reflexivity. }
  cbn [value_]. rewrite Hws.
  repeat match goal with
         | |- context [N.eqb (N_of_ascii c) ?k] =>
             destruct (N.eqb_spec (N_of_ascii c) k); [lia |]
         end.
  reflexivity.
Qed.

Lemma value_string (fuel : nat) (s : string) :
  value_ (S fuel) (String (ascii_of_N 34) s)
  = match string_body s with
    | Some (str, r) => Some (VStr str, r)
    | None => None
    end.
Proof. reflexivity. Qed.

Lemma value_array (fuel : nat) (c : ascii) (t : string) :
  value_start c = true ->
  value_ (S fuel) (String "[" (String c t))
  = match elements fuel (String c t) with
    | Some (l, r) => Some (VArr l, r)
    | None => None
    end.
Proof.
  intros Hc. destruct (value_start_skip c t Hc) as (Hskip & H93 & _).
  change (value_ (S fuel) (String "[" (String c t)))
    with (match skip_ws (String c t) with
          | String c' r =>
              if N.eqb (N_of_ascii c') 93 then Some (VArr [], r)
              else
                match elements fuel (String c t) with
                | Some (l, r) => Some (VArr l, r)
                | None => None
                end
          | "" => None
          end).
  now rewrite Hskip, H93.
Qed.

Lemma value_object (fuel : nat) (t : string) :
  value_ (S fuel) (String "{" (String (ascii_of_N 34) t))
  = match members fuel (String (ascii_of_N 34) t) with
    | Some (kvs, r) => Some (object_literal kvs, r)
    | None => None
    end.
Proof. reflexivity. Qed.

Lemma elements_step (fuel : nat) (s : string) :
  elements (S fuel) s
  = match value_ fuel s with
    | None => None
    | Some (v, r) =>
        match skip_ws r with
        | String c r' =>
            if N.eqb (N_of_ascii c) 44 then
              match elements fuel r' with
              | Some (l, r'') => Some (v :: l, r'')
              | None => None
              end
            else if N.eqb (N_of_ascii c) 93 then Some ([v], r')
            else None
        | "" => None
        end
    end.
Proof. reflexivity. Qed.

Lemma members_step (fuel : nat) (k rest : string) :
  members (S fuel)
    (String (ascii_of_N 34)
       (escape_all k ++ String (ascii_of_N 34) (String ":" rest)))
  = match value_ fuel rest with
    | None => None
    | Some (v, r) =>
        match skip_ws r with
        | String c r' =>
            if N.eqb (N_of_ascii c) 44 then
              match members fuel r' with
              | Some (kvs, r'') => Some ((k, v) :: kvs, r'')
              | None => None
              end
            else if N.eqb (N_of_ascii c) 125 then Some ([(k, v)], r')
            else None
        | "" => None
        end
    end.
Proof.
  change (members (S fuel)
            (String (ascii_of_N 34)
               (escape_all k ++ String (ascii_of_N 34) (String ":" rest))))
    with (match string_body
                  (escape_all k ++ String (ascii_of_N 34) (String ":" rest))
          with
          | None => None
          | Some (k, s2) =>
              match skip_ws s2 with
              | String colon s3 =>
                  if N.eqb (N_of_ascii colon) 58 then
                    match value_ fuel s3 with
                    | None => None
                    | Some (v, r) =>
                        match skip_ws r with
                        | String c r' =>
                            if N.eqb (N_of_ascii c) 44 then
                              match members fuel r' with
                              | Some (kvs, r'') => Some ((k, v) :: kvs, r'')
                              | None => None
                              end
                            else if N.eqb (N_of_ascii c) 125
                            then Some ([(k, v)], r')
                            else None
                        | "" => None
                        end
                    end
                  else None
              | "" => None
              end
          end).
  now rewrite string_body_escape_all.
Qed.

Lemma member_append (p : string * value) (rest : string) :
  member p ++ rest
  = String (ascii_of_N 34)
      (escape_all (fst p)
       ++ String (ascii_of_N 34) (String ":" (text (snd p) ++ rest))).
Proof.
  unfold member. rewrite append_assoc, quote_append. reflexivity.
Qed.

(** *** Objects in enumeration order *)

Lemma define_last (acc : props) (k : string) (v : value) :
  (forall p, In p acc ->
     String.eqb k (fst p) = false /\ goes_before k (fst p) = false) ->
  define acc k v = (acc ++ [(k, v)])%list.
Proof.
  induction acc as [|[k0 v0] acc IH]; intros Hacc; [reflexivity |].
  destruct (Hacc (k0, v0) (or_introl eq_refl)) as [Hne Hgb].
  cbn [fst] in Hne, Hgb. rewrite String.eqb_sym in Hne.
  cbn [define app]. rewrite Hne, Hgb, IH; [reflexivity |].
  intros p Hp. apply Hacc. now right.
Qed.

Lemma canonical_keys_app (acc : props) (k : string) (v : value)
  (ps : props) :
  canonical_keys (map fst (acc ++ (k, v) :: ps)%list) = true ->
  forall p, In p acc ->
    String.eqb k (fst p) = false /\ goes_before k (fst p) = false.
Proof.
  induction acc as [|[k0 v0] acc IH]; intros Hc p Hp; [destruct Hp |].
  cbn [app map fst canonical_keys] in Hc.
  apply andb_prop in Hc. destruct Hc as [Hall Hc].
  destruct Hp as [<- | Hp]; [| now apply IH].
  rewrite forallb_forall in Hall.
  specialize (Hall k).
  assert (Hin : In k (map fst (acc ++ (k, v) :: ps)%list)).
  { rewrite map_app. apply in_or_app. right. now left. }
  apply Hall in Hin. apply andb_prop in Hin. destruct Hin as [H1 H2].
  now rewrite negb_true_iff in H1, H2.
Qed.

Lemma object_literal_canonical (ps : props) :
  canonical_keys (map fst ps) = true -> object_literal ps = VObj ps.
Proof.
  intros Hc. unfold object_literal. f_equal.
  assert (H : forall acc,
             canonical_keys (map fst (acc ++ ps)%list) = true ->
             fold_left (fun a kv => define a (fst kv) (snd kv)) ps acc
             = (acc ++ ps)%list).
  { clear Hc. induction ps as [|[k v] ps IH]; intros acc Hc.
    - now rewrite List.app_nil_r.
    - cbn [fold_left fst snd].
      rewrite (define_last acc k v (canonical_keys_app acc k v ps Hc)).
      rewrite IH; rewrite <- List.app_assoc; [reflexivity | exact Hc]. }
  exact (H [] Hc).
Qed.

(** *** Reading back the text of a value *)

Lemma read_back (fuel : nat) :
  (forall v rest,
     json v = true -> size v <= fuel -> follows rest = true ->
     value_ fuel (text v ++ rest) = Some (v, rest))
  /\ (forall x l rest,
        forallb json (x :: l) = true -> elements_size (x :: l) <= fuel ->
        elements fuel (join (map text (x :: l)) ++ String "]" rest)
        = Some (x :: l, rest))
  /\ (forall p ps rest,
        members_json (p :: ps) = true -> members_size (p :: ps) <= fuel ->
        members fuel (join (map member (p :: ps)) ++ String "}" rest)
        = Some (p :: ps, rest)).
Proof.
  induction fuel as [|fuel (IHv & IHe & IHm)].
  { repeat split.
    - intros v rest _ Hsize. pose proof (size_positive v). lia.
    - intros x l rest _ Hsize. cbn in Hsize. lia.
    - intros p ps rest _ Hsize. cbn in Hsize. lia. }
  repeat split.
  - (* values *)
    intros v rest Hv Hsize Hrest.
    destruct v as [| |b|n|s|t|name|l|ps]; try discriminate Hv.
    + reflexivity.
    + destruct b; reflexivity.
    + change (text (VNum n)) with (number_to_string n).
      destruct (number_head n) as (c & t & E & Hc).
      pose proof (number_text n rest Hrest) as Hn.
      rewrite E in *. cbn [append] in *.
      now rewrite value_number.
    + change (text (VStr s)) with (quote s).
      now rewrite quote_append, value_string, string_body_escape_all.
    + rewrite text_array. destruct l as [|x l]; [reflexivity |].
      cbn [append]. rewrite append_assoc. cbn [append].
      destruct (text_head x) as (c & t & E & Hc).
      { cbn [json forallb] in Hv. now apply andb_prop in Hv. }
      assert (Hjoin : exists t', join (map text (x :: l)) = String c t').
      { cbn [map join]. rewrite E. destruct (map text l); eexists; reflexivity. }
      destruct Hjoin as (t' & Hjoin).
      pose proof (IHe x l rest Hv) as He. rewrite Hjoin in *.
      cbn [append] in *. rewrite value_array by exact Hc.
      rewrite He; [reflexivity |]. cbn [size] in Hsize.
      fold (elements_size (x :: l)) in Hsize. lia.
    + cbn [json] in Hv. apply andb_prop in Hv. destruct Hv as [Hkeys Hps].
      fold (members_json ps) in Hps.
      rewrite (text_object ps Hps). destruct ps as [|p ps]; [reflexivity |].
      cbn [append]. rewrite append_assoc. cbn [append].
      assert (Hjoin : exists t',
                 join (map member (p :: ps)) = String (ascii_of_N 34) t').
      { destruct ps as [|q ps]; cbn [map join]; unfold member at 1;
          unfold quote; cbn [append]; eexists; reflexivity. }
      destruct Hjoin as (t' & Hjoin).
      pose proof (IHm p ps rest Hps) as Hm. rewrite Hjoin in *.
      cbn [append] in *. rewrite value_object.
      rewrite Hm; [now rewrite (object_literal_canonical _ Hkeys) |].
      cbn [size] in Hsize. fold (members_size (p :: ps)) in Hsize. lia.
  - (* elements *)
    intros x l rest Hl Hsize.
    cbn [forallb] in Hl. apply andb_prop in Hl. destruct Hl as [Hx Hl].
    cbn [elements_size fold_right] in Hsize. fold (elements_size l) in Hsize.
    rewrite elements_step. destruct l as [|y l].
    + cbn [map join]. rewrite IHv by (trivial; lia). reflexivity.
    + change (join (map text (x :: y :: l)))
        with (text x ++ "," ++ join (map text (y :: l))).
      rewrite append_assoc. cbn [append].
      rewrite IHv by (trivial; lia).
      cbn [skip_ws]. change (is_ws ",") with false. cbv iota.
      change (N.eqb (N_of_ascii ",") 44) with true. cbv iota.
      rewrite IHe by (trivial; lia). reflexivity.
  - (* members *)
    intros [k v] ps rest Hps Hsize.
    cbn [members_json forallb fst snd] in Hps. apply andb_prop in Hps.
    destruct Hps as [Hp Hps]. apply andb_prop in Hp. destruct Hp as [_ Hv].
    fold (members_json ps) in Hps.
    cbn [members_size fold_right snd] in Hsize.
    fold (members_size ps) in Hsize.
    destruct ps as [|q ps].
    + cbn [map join]. rewrite member_append, members_step. cbn [fst snd].
      rewrite IHv by (trivial; lia). reflexivity.
    + change (join (map member ((k, v) :: q :: ps)))
        with (member (k, v) ++ "," ++ join (map member (q :: ps))).
      rewrite append_assoc, member_append, members_step.
      cbn [append fst snd].
      rewrite IHv by (trivial; lia).
      cbn [skip_ws]. change (is_ws ",") with false. cbv iota.
      change (N.eqb (N_of_ascii ",") 44) with true. cbv iota.
      rewrite IHm by (trivial; lia). reflexivity.
Qed.

(** *** Induction on the size of a value *)

Lemma size_ind (P : value -> Prop) :
  (forall v, (forall w, size w < size v -> P w) -> P v) -> forall v, P v.
Proof.
  intros Hstep v.
  assert (H : forall n w, size w < n -> P w).
  { induction n as [|n IH]; intros w Hw; [lia |].
    apply Hstep. intros u Hu. apply IH. lia. }
  apply (H (S (size v))). lia.
Qed.

Lemma size_element (x : value) (l : list value) :
  In x l -> size x < size (VArr l).
Proof.
  cbn [size]. induction l as [|y l IH]; intros Hin; [destruct Hin |].
  cbn [fold_right]. destruct Hin as [-> | Hin]; [lia |].
  specialize (IH Hin). lia.
Qed.

Lemma size_member (p : string * value) (ps : list (string * value)) :
  In p ps -> size (snd p) < size (VObj ps).
Proof.
  cbn [size]. induction ps as [|q ps IH]; intros Hin; [destruct Hin |].
  cbn [fold_right]. destruct Hin as [-> | Hin]; [lia |].
  specialize (IH Hin). lia.
Qed.

Lemma length_join (f : value -> string) (l : list value) :
  (forall x, In x l -> size x <= String.length (f x)) ->
  elements_size l <= S (String.length (join (map f l))).
Proof.
  induction l as [|x l IH]; intros Hl; [cbn; lia |].
  assert (Hx : size x <= String.length (f x)) by (apply Hl; now left).
  assert (Hrec : elements_size l <= S (String.length (join (map f l))))
    by (apply IH; intros y Hy; apply Hl; now right).
  cbn [elements_size fold_right]. fold (elements_size l).
  destruct l as [|y l].
  - cbn [map join elements_size fold_right]. lia.
  - change (join (map f (x :: y :: l)))
      with (f x ++ "," ++ join (map f (y :: l))).
    rewrite !length_append. cbn [String.length]. lia.
Qed.

Lemma length_join_members (ps : list (string * value)) :
  (forall p, In p ps -> size (snd p) <= String.length (text (snd p))) ->
  members_size ps <= S (String.length (join (map member ps))).
Proof.
  assert (Hm : forall p, String.length (text (snd p))
                         <= String.length (member p)).
  { intros p. unfold member. rewrite !length_append. lia. }
  induction ps as [|p ps IH]; intros Hps; [cbn; lia |].
  assert (Hp : size (snd p) <= String.length (text (snd p)))
    by (apply Hps; now left).
  assert (Hrec : members_size ps <= S (String.length (join (map member ps))))
    by (apply IH; intros q Hq; apply Hps; now right).
  pose proof (Hm p).
  cbn [members_size fold_right]. fold (members_size ps).
  destruct ps as [|q ps].
  - cbn [map join members_size fold_right]. lia.
  - change (join (map member (p :: q :: ps)))
      with (member p ++ "," ++ join (map member (q :: ps))).
    rewrite !length_append. cbn [String.length]. lia.
Qed.

Lemma size_le_length (v : value) :
  json v = true -> size v <= String.length (text v).
Proof.
  pattern v. revert v. apply size_ind. intros v IH Hv.
  destruct v as [| |b|n|s|t|name|l|ps]; try discriminate Hv;
    try (destruct (text_head _ Hv) as (c & t' & -> & _); cbn; lia).
  - rewrite text_array, !length_append. cbn [String.length size].
    fold (elements_size l).
    assert (H : elements_size l <= S (String.length (join (map text l))));
      [| lia].
    apply length_join. intros x Hx. apply IH; [now apply size_element |].
    cbn [json] in Hv. rewrite forallb_forall in Hv. now apply Hv.
  - cbn [json] in Hv. apply andb_prop in Hv. destruct Hv as [_ Hps].
    rewrite (text_object ps Hps), !length_append.
    cbn [String.length size]. fold (members_size ps).
    assert (H : members_size ps
                <= S (String.length (join (map member ps)))); [| lia].
    apply length_join_members. intros p Hp.
    apply IH; [now apply size_member |].
    rewrite forallb_forall in Hps. specialize (Hps p Hp).
    now apply andb_prop in Hps.
Qed.

(** [JSON.parse] gives back a value from its text. *)
Lemma parse_text (v : value) : json v = true -> parse (text v) = Ok v.
Proof.
  intros Hv. unfold parse.
  pose proof (proj1 (read_back (S (String.length (text v)))) v "" Hv) as H.
  rewrite append_empty in H. rewrite H; [reflexivity | | reflexivity].
  pose proof (size_le_length v Hv). lia.
Qed.

(** *** The text of a value is well-formed *)

Lemma escape_plain (c : ascii) :
  Utf8.ascii7 c = true -> Utf8.plain (escape c) = true.
Proof.
  destruct c as [[] [] [] [] [] [] [] []]; intros H;
    try discriminate H; reflexivity.
Qed.

Lemma escape_high (c : ascii) :
  Utf8.ascii7 c = false -> escape c = String c "".
Proof.
  destruct c as [[] [] [] [] [] [] [] []]; intros H;
    try discriminate H; reflexivity.
Qed.

Lemma between_high (lo hi : N) (c : ascii) :
  (128 <= lo)%N -> Utf8.between lo hi c = true -> Utf8.ascii7 c = false.
Proof.
  unfold Utf8.between, Utf8.ascii7. intros Hlo H.
  apply andb_prop in H. destruct H as [H _]. apply N.leb_le in H.
  apply N.ltb_ge. lia.
Qed.

Lemma lead_second (c : ascii) (lo hi : N) :
  Utf8.lead_of c = Some (Utf8.Lead3 lo hi)
  \/ Utf8.lead_of c = Some (Utf8.Lead4 lo hi) ->
  (128 <= lo)%N.
Proof.
  unfold Utf8.lead_of.
  repeat match goal with
         | |- context [if ?b then _ else _] => destruct b
         end;
    intros [H | H]; try discriminate H; injection H as <- <-; lia.
Qed.

Lemma valid_escape_all (s : string) :
  Utf8.valid s = true -> Utf8.valid (escape_all s) = true.
Proof.
  intros Hs. pattern s. revert s Hs. apply Utf8Facts.valid_ind.
  - reflexivity.
  - intros c s Hc _ IH. cbn [escape_all].
    apply Utf8Facts.valid_app; [| exact IH].
    apply Utf8Facts.plain_valid. now apply escape_plain.
  - intros c1 c2 s E1 El E2 _ IH. cbn [escape_all].
    rewrite (escape_high c1 E1).
    rewrite (escape_high c2 (between_high 128 191 c2 ltac:(lia) E2)).
    cbn [append]. now rewrite (Utf8Facts.valid_two _ _ _ E1 El E2).
  - intros c1 c2 c3 lo hi s E1 El E2 E3 _ IH. cbn [escape_all].
    rewrite (escape_high c1 E1).
    rewrite (escape_high c2
               (between_high lo hi c2 (lead_second c1 lo hi (or_introl El)) E2)).
    rewrite (escape_high c3 (between_high 128 191 c3 ltac:(lia) E3)).
    cbn [append]. now rewrite (Utf8Facts.valid_three _ _ _ _ _ _ E1 El E2 E3).
  - intros c1 c2 c3 c4 lo hi s E1 El E2 E3 E4 _ IH. cbn [escape_all].
    rewrite (escape_high c1 E1).
    rewrite (escape_high c2
               (between_high lo hi c2 (lead_second c1 lo hi (or_intror El)) E2)).
    rewrite (escape_high c3 (between_high 128 191 c3 ltac:(lia) E3)).
    rewrite (escape_high c4 (between_high 128 191 c4 ltac:(lia) E4)).
    cbn [append].
    now rewrite (Utf8Facts.valid_four _ _ _ _ _ _ _ E1 El E2 E3 E4).
Qed.

Lemma valid_quote (s : string) :
  Utf8.valid s = true -> Utf8.valid (quote s) = true.
Proof.
  intros Hs. unfold quote.
  change (String (ascii_of_N 34) (escape_all s ++ String (ascii_of_N 34) ""))
    with (String (ascii_of_N 34) "" ++ escape_all s
          ++ String (ascii_of_N 34) "").
  apply Utf8Facts.valid_app; [reflexivity |].
  apply Utf8Facts.valid_app; [now apply valid_escape_all | reflexivity].
Qed.

Lemma plain_uint (d : Decimal.uint) :
  Utf8.plain (NilEmpty.string_of_uint d) = true.
Proof. induction d; try reflexivity; cbn; exact IHd. Qed.

Lemma plain_number (n : Z) : Utf8.plain (number_to_string n) = true.
Proof.
  unfold number_to_string.
  assert (H : forall d, Utf8.plain (NilZero.string_of_uint d) = true).
  { intros d. destruct d; try reflexivity; apply plain_uint. }
  destruct n as [|p|p]; cbn [Z.to_int NilZero.string_of_int];
    [reflexivity | apply H |].
  cbn [Utf8.plain]. now rewrite H.
Qed.

Lemma valid_join (l : list string) :
  (forall s, In s l -> Utf8.valid s = true) -> Utf8.valid (join l) = true.
Proof.
  induction l as [|x l IH]; intros Hl; [reflexivity |].
  assert (Hx : Utf8.valid x = true) by (apply Hl; now left).
  assert (Hrec : Utf8.valid (join l) = true)
    by (apply IH; intros s Hs; apply Hl; now right).
  destruct l as [|y l]; [exact Hx |].
  change (join (x :: y :: l)) with (x ++ "," ++ join (y :: l)).
  apply Utf8Facts.valid_app; [exact Hx |].
  apply Utf8Facts.valid_app; [reflexivity | exact Hrec].
Qed.

Lemma valid_text (v : value) :
  json v = true -> Utf8.valid (text v) = true.
Proof.
  pattern v. revert v. apply size_ind. intros v IH Hv.
  destruct v as [| |b|n|s|t|name|l|ps]; try discriminate Hv.
  - reflexivity.
  - now destruct b.
  - apply Utf8Facts.plain_valid. apply plain_number.
  - now apply valid_quote.
  - rewrite text_array.
    apply Utf8Facts.valid_app; [reflexivity |].
    apply Utf8Facts.valid_app; [| reflexivity].
    apply valid_join. intros s Hs. apply in_map_iff in Hs.
    destruct Hs as (x & <- & Hx). apply IH; [now apply size_element |].
    cbn [json] in Hv. rewrite forallb_forall in Hv. now apply Hv.
  - cbn [json] in Hv. apply andb_prop in Hv. destruct Hv as [_ Hps].
    rewrite (text_object ps Hps).
    apply Utf8Facts.valid_app; [reflexivity |].
    apply Utf8Facts.valid_app; [| reflexivity].
    apply valid_join. intros s Hs. apply in_map_iff in Hs.
    destruct Hs as (p & <- & Hp).
    unfold members_json in Hps. rewrite forallb_forall in Hps.
    specialize (Hps p Hp). apply andb_prop in Hps. destruct Hps as [Hk Hx].
    unfold member. apply Utf8Facts.valid_app; [now apply valid_quote |].
    apply Utf8Facts.valid_app; [reflexivity |].
    apply IH; [now apply size_member | exact Hx].
Qed.

End JsonFacts.

(* ================================================================== *)
(** * The round trip of a token *)

Module RoundTrip.
Import ObjectFacts Token JsonFacts.

Lemma written_key (p : string * value) : fst (written p) = fst p.
Proof. reflexivity. Qed.

Lemma written_text (p : string * value) :
  Json.stringify (snd (written p)) = Json.stringify (snd p).
Proof. now destruct p as [k [| | | | |[t|]| | |]]. Qed.

Lemma stringify_written (ps : props) :
  Json.stringify (VObj (map written ps)) = Json.stringify (VObj ps).
Proof.
  cbn [Json.stringify]. do 4 f_equal.
  induction ps as [|p ps IH]; [reflexivity |].
  cbn [map flat_map]. now rewrite written_key, written_text, IH.
Qed.

Lemma kept_written (p : string * value) :
  kept_field p = true ->
  Utf8.valid (fst (written p)) && json (snd (written p)) = true.
Proof.
  unfold kept_field, written, written_value. intros H.
  apply andb_prop in H. destruct H as [Hk H].
  destruct p as [k v]. cbn [fst snd] in *.
  destruct v as [| |b|n|s|[t|]|name|l|ps]; cbn [fst snd]; rewrite Hk;
    try exact H.
  - now apply andb_prop in H.
  - apply andb_prop in H. destruct H as [_ Ht].
    cbn [json andb]. apply Utf8Facts.plain_valid.
    now apply IsoDateText.toISOString_plain.
Qed.

Lemma json_written (ps : props) :
  canonical_keys (map fst ps) = true ->
  forallb kept_field ps = true ->
  json (VObj (map written ps)) = true.
Proof.
  intros Hkeys Hps. cbn [json].
  rewrite map_map, (map_ext _ fst written_key), Hkeys. cbn [andb].
  apply forallb_forall. intros q Hq. apply in_map_iff in Hq.
  destruct Hq as (p & <- & Hp). apply kept_written.
  rewrite forallb_forall in Hps. now apply Hps.
Qed.

Lemma payload_literal (data : value) (sort : list string) :
  object_literal [("data", data); ("sort", VArr (map VStr sort))]
  = payload data sort.
Proof. reflexivity. Qed.

Lemma json_payload (ps : props) (sort : list string) :
  canonical_keys (map fst ps) = true ->
  forallb kept_field ps = true ->
  forallb Utf8.valid sort = true ->
  json (payload (VObj (map written ps)) sort) = true.
Proof.
  intros Hkeys Hps Hsort. unfold payload.
  change (json (VObj [("data", VObj (map written ps));
                      ("sort", VArr (map VStr sort))]))
    with (true && (true && json (VObj (map written ps))
                   && (true && forallb json (map VStr sort) && true))).
  rewrite (json_written ps Hkeys Hps). cbn [andb].
  rewrite andb_true_r. apply forallb_forall. intros v Hv.
  apply in_map_iff in Hv. destruct Hv as (s & <- & Hs).
  rewrite forallb_forall in Hsort. now apply Hsort.
Qed.

Lemma stringify_payload (d d' : value) (sort : list string) :
  Json.stringify d = Json.stringify d' ->
  Json.stringify (payload d sort) = Json.stringify (payload d' sort).
Proof.
  intros H. unfold payload. cbn [Json.stringify flat_map fst snd].
  now rewrite H.
Qed.

Lemma text_payload (ps : props) (sort : list string) :
  Json.stringify (payload (VObj ps) sort)
  = Some (text (payload (VObj (map written ps)) sort)).
Proof.
  rewrite (stringify_payload (VObj ps) (VObj (map written ps)) sort)
    by (symmetry; apply stringify_written).
  reflexivity.
Qed.

Lemma encode_not_empty (s : string) :
  s <> "" -> String.eqb (Base64.encode s) "" = false.
Proof. destruct s as [|a [|b [|c s]]]; [now intros H | reflexivity ..]. Qed.

(** Lines 45-54 on an object made of a data object and a sort array. *)
Lemma validated_payload (dps : props) (sort : list string) :
  validated (host := Node) (payload (VObj dps) sort)
  = Ok (match own dps "created_at" with
        | Some c =>
            if truthy c && String.eqb (typeof c) "string"
            then payload (VObj (define dps "created_at"
                                  (new_Date (host := Node) c))) sort
            else payload (VObj dps) sort
        | None => payload (VObj dps) sort
        end).
Proof.
  unfold validated, payload.
  change (get (VObj [("data", VObj dps); ("sort", VArr (map VStr sort))])
            "data") with (Ok (A := value) (VObj dps)).
  change (get (VObj [("data", VObj dps); ("sort", VArr (map VStr sort))])
            "sort") with (Ok (A := value) (VArr (map VStr sort))).
  cbn [truthy negb bind typeof isArray String.eqb Ascii.eqb Bool.eqb].
  rewrite (get_plain_key_own dps "created_at" eq_refl). cbn [bind].
  destruct (own dps "created_at") as [c|]; [| reflexivity].
  destruct (truthy c && String.eqb (typeof c) "string"); reflexivity.
Qed.

(** *** Objects with distinct keys *)

Lemma canonical_keys_cons (k : string) (ks : list string) :
  canonical_keys (k :: ks) = true ->
  ~ In k ks /\ canonical_keys ks = true.
Proof.
  cbn [canonical_keys]. intros H. apply andb_prop in H.
  destruct H as [Hall Hks]. split; [| exact Hks].
  intros Hin. rewrite forallb_forall in Hall. specialize (Hall k Hin).
  now rewrite String.eqb_refl in Hall.
Qed.

Lemma own_absent (ps : props) (k : string) :
  ~ In k (map fst ps) -> own ps k = None.
Proof.
  induction ps as [|[k0 v0] ps IH]; intros Hk; [reflexivity |].
  cbn [own]. destruct (String.eqb_spec k0 k) as [-> | Hne].
  - elim Hk. now left.
  - apply IH. intros Hin. apply Hk. now right.
Qed.

Lemma own_in (ps : props) (p : string * value) :
  canonical_keys (map fst ps) = true ->
  In p ps -> own ps (fst p) = Some (snd p).
Proof.
  induction ps as [|[k0 v0] ps IH]; intros Hc Hin; [destruct Hin |].
  cbn [map fst] in Hc. apply canonical_keys_cons in Hc.
  destruct Hc as [Hfresh Hc]. cbn [own].
  destruct Hin as [<- | Hin]; [now rewrite String.eqb_refl |].
  destruct (String.eqb_spec k0 (fst p)) as [-> | Hne]; [| now apply IH].
  elim Hfresh. now apply in_map.
Qed.

Lemma own_Some_in (ps : props) (k : string) (v : value) :
  own ps k = Some v -> In (k, v) ps.
Proof.
  induction ps as [|[k0 v0] ps IH]; [discriminate |].
  cbn [own]. destruct (String.eqb_spec k0 k) as [-> | Hne].
  - intros [= ->]. now left.
  - intros H. right. now apply IH.
Qed.

Lemma own_written (ps : props) (k : string) :
  own (map written ps) k = option_map written_value (own ps k).
Proof.
  induction ps as [|[k0 v0] ps IH]; [reflexivity |].
  cbn [map own written fst snd]. now destruct (String.eqb k0 k).
Qed.

Lemma map_fixed {A : Type} (f : A -> A) (l : list A) :
  (forall x, In x l -> f x = x) -> map f l = l.
Proof.
  induction l as [|x l IH]; intros H; [reflexivity |].
  cbn [map]. rewrite H by now left. rewrite IH; [reflexivity |].
  intros y Hy. apply H. now right.
Qed.

(** A marker without a date is written as it is. *)
Lemma written_fixed (ps : props) :
  canonical_keys (map fst ps) = true ->
  forallb kept_field ps = true ->
  (forall t, own ps "created_at" <> Some (VDate (Some t))) ->
  map written ps = ps.
Proof.
  intros Hkeys Hps Hnone. apply map_fixed. intros [k v] Hin.
  rewrite forallb_forall in Hps. pose proof (Hps _ Hin) as Hkept.
  pose proof (own_in ps _ Hkeys Hin) as Hown. cbn [fst snd] in Hown.
  unfold written, written_value. cbn [fst snd].
  destruct v as [| |b|n|s|[t|]|name|l|qs]; try reflexivity.
  unfold kept_field in Hkept. cbn [fst snd] in Hkept.
  apply andb_prop in Hkept. destruct Hkept as [_ Hkept].
  apply andb_prop in Hkept. destruct Hkept as [Hk _].
  apply String.eqb_eq in Hk. subst k. now elim (Hnone t).
Qed.

(** Putting a value back under a key that is not an array index. *)
Lemma define_restore (ps : props) (k : string) (v : value) :
  array_index k = None ->
  canonical_keys (map fst ps) = true ->
  own ps k = Some v ->
  (forall p, In p ps -> fst p <> k -> written p = p) ->
  define (map written ps) k v = ps.
Proof.
  intros Hk. induction ps as [|[k0 v0] ps IH]; intros Hc Hown Hfix;
    [discriminate |].
  cbn [map fst] in Hc. apply canonical_keys_cons in Hc.
  destruct Hc as [Hfresh Hc].
  cbn [own] in Hown. cbn [map written fst snd define].
  destruct (String.eqb_spec k0 k) as [-> | Hne].
  - injection Hown as ->. f_equal. apply map_fixed. intros p Hp.
    apply Hfix; [now right |]. intros <-. apply Hfresh. now apply in_map.
  - assert (Hgb : goes_before k k0 = false)
      by (unfold goes_before; now rewrite Hk).
    rewrite Hgb.
    assert (E : written_value v0 = v0).
    { specialize (Hfix (k0, v0) (or_introl eq_refl) Hne).
      unfold written in Hfix. cbn [fst snd] in Hfix. congruence. }
    rewrite E. f_equal. apply IH; trivial.
    intros p Hp. apply Hfix. now right.
Qed.

Lemma kept_not_created_at (ps : props) (p : string * value) :
  forallb kept_field ps = true ->
  In p ps -> fst p <> "created_at" -> written p = p.
Proof.
  intros Hps Hin Hne. rewrite forallb_forall in Hps.
  specialize (Hps p Hin). destruct p as [k v].
  unfold written, written_value. cbn [fst snd] in *.
  destruct v as [| |b|n|s|[t|]|name|l|qs]; try reflexivity.
  unfold kept_field in Hps. cbn [fst snd] in Hps.
  apply andb_prop in Hps. destruct Hps as [_ Hps].
  apply andb_prop in Hps. destruct Hps as [Hk _].
  apply String.eqb_eq in Hk. contradiction.
Qed.

(** What lines 50-52 make of the written marker is the marker. *)
Lemma restored (ps : props) (sort : list string) :
  canonical_keys (map fst ps) = true ->
  forallb kept_field ps = true ->
  match own (map written ps) "created_at" with
  | Some c =>
      if truthy c && String.eqb (typeof c) "string"
      then payload (VObj (define (map written ps) "created_at"
                            (new_Date (host := Node) c))) sort
      else payload (VObj (map written ps)) sort
  | None => payload (VObj (map written ps)) sort
  end
  = payload (VObj ps) sort.
Proof.
  intros Hkeys Hps. rewrite own_written.
  destruct (own ps "created_at") as [v|] eqn:Hown; cbn [option_map].
  - pose proof (own_Some_in _ _ _ Hown) as Hin.
    pose proof (proj1 (forallb_forall _ _) Hps _ Hin) as Hkept.
    unfold kept_field in Hkept. cbn [fst snd] in Hkept.
    apply andb_prop in Hkept. destruct Hkept as [_ Hkept].
    destruct v as [| |b|n|s|[t|]|name|l|qs]; try discriminate Hkept;
      cbn [written_value truthy typeof andb String.eqb Ascii.eqb Bool.eqb].
    + rewrite written_fixed; trivial. intros t. rewrite Hown. discriminate.
    + rewrite ?andb_false_r. rewrite written_fixed; trivial.
      intros t. rewrite Hown. discriminate.
    + rewrite ?andb_false_r. rewrite written_fixed; trivial.
      intros t. rewrite Hown. discriminate.
    + apply andb_prop in Hkept. destruct Hkept as [_ Hs].
      cbn [String.eqb Ascii.eqb Bool.eqb andb negb] in Hs.
      apply negb_true_iff, negb_false_iff in Hs. rewrite Hs.
      cbn [negb andb]. rewrite written_fixed; trivial.
      intros t. rewrite Hown. discriminate.
    + apply andb_prop in Hkept. destruct Hkept as [_ Ht].
      destruct (IsoDateText.toISOString_plain t Ht) as [_ Hne].
      apply String.eqb_neq in Hne. rewrite Hne. cbn [negb andb].
      cbn [new_Date Date_parse Node].
      rewrite (IsoDateFacts.parse_toISOString t Ht).
      rewrite (define_restore ps "created_at" (VDate (Some t)) eq_refl
                 Hkeys Hown (fun p Hp => kept_not_created_at ps p Hps Hp)).
      reflexivity.
    + rewrite ?andb_false_r. rewrite written_fixed; trivial.
      intros t. rewrite Hown. discriminate.
    + rewrite ?andb_false_r. rewrite written_fixed; trivial.
      intros t. rewrite Hown. discriminate.
  - rewrite written_fixed; trivial. intros t. rewrite Hown. discriminate.
Qed.

Lemma text_not_empty (v : value) : json v = true -> text v <> "".
Proof.
  intros Hv. destruct (text_head v Hv) as (c & t & -> & _). discriminate.
Qed.




End RoundTrip.

(* ================================================================== *)
(** * The token codec on every host: what is accepted, what is refused *)

Module TokenEdges.
Import ObjectFacts Token.

Section AnyHost.
Context {host : Runtime}.

(** A read from a receiver that is neither [undefined] nor [null] does not
    throw. *)
Lemma get_not_nullish (o : value) (k : string) :
  nullish o = false -> exists v, get o k = Ok v.
Proof.
  destruct o; intros E; try discriminate E; unfold get;
    repeat match goal with
           | |- exists _, match ?x with _ => _ end = _ => destruct x
           end;
    eauto.
Qed.

Lemma truthy_not_nullish (v : value) : truthy v = true -> nullish v = false.
Proof. now destruct v. Qed.

(** What lines 45-54 do with the parsed text, case by case: the structure
    is right and the data object is [null], which line 50 cannot read; the
    structure is right and the data object is not [null]; the structure is
    wrong. *)
Lemma validated_cases (decoded : value) :
  (truthy decoded = true
   /\ exists data l,
        get decoded "data" = Ok data /\ typeof data = "object"
        /\ get decoded "sort" = Ok (VArr l)
        /\ ((data = VNull /\ validated decoded = Throw TypeError)
            \/ (data <> VNull /\ exists r, validated decoded = Ok r)))
  \/ (validated decoded = Throw (Error "Invalid structure")
      /\ ~ (truthy decoded = true
            /\ exists data l,
                 get decoded "data" = Ok data /\ typeof data = "object"
                 /\ get decoded "sort" = Ok (VArr l))).
Proof.
  unfold validated.
  destruct (truthy decoded) eqn:Ht; cbn [negb];
    [| right; split; [reflexivity | now intros [? _]]].
  destruct (get_not_nullish decoded "data" (truthy_not_nullish _ Ht))
    as (data & Hdata).
  destruct (get_not_nullish decoded "sort" (truthy_not_nullish _ Ht))
    as (sort & Hsort).
  rewrite Hdata, Hsort. cbn [bind].
  destruct (String.eqb_spec (typeof data) "object") as [Htype | Htype];
    cbn [negb bind].
  - destruct (isArray sort) eqn:Harr; cbn [negb].
    + destruct sort as [| | | | | | |l|]; try discriminate Harr.
      left. split; [reflexivity |].
      exists data, l. repeat split; trivial.
      destruct data as [| | | | |t| |elems|dps]; try discriminate Htype.
      * left. split; reflexivity.
      * right. split; [discriminate |]. cbn. eauto.
      * right. split; [discriminate |].
        destruct (get_not_nullish (VArr elems) "created_at" eq_refl)
          as (c & ->).
        cbn [bind]. destruct (truthy c && _); eauto.
      * right. split; [discriminate |].
        destruct (get_not_nullish (VObj dps) "created_at" eq_refl)
          as (c & ->).
        cbn [bind]. destruct (truthy c && _); eauto.
    + right. split; [reflexivity |].
      intros (_ & d & l & _ & _ & H). injection H as ->. discriminate.
  - right. split; [reflexivity |].
    intros (_ & d & l & H & H' & _). congruence.
Qed.

(** The run of [parseContinuationToken] on a token that the host decodes
    and parses. *)
Lemma parse_decoded (token : value) (jsonString : string) (decoded : value) :
  truthy token = true ->
  Buffer_from_base64 token = Ok jsonString ->
  JSON_parse jsonString = Ok decoded ->
  parseContinuationToken token
  = match validated decoded with
    | Ok parsed => {| completion := Ok parsed; console_error := [] |}
    | Throw e =>
        {| completion := Throw (BadRequestError invalid_cursor_message);
           console_error := [e] |}
    end.
Proof.
  intros Ht Hbuf Hjson. unfold parseContinuationToken.
  rewrite Ht, try_block_validated, Hbuf. cbn [negb bind].
  now rewrite Hjson.
Qed.

Lemma validated_object (parsed r : value) :
  validated parsed = Ok r -> exists ps, r = VObj ps.
Proof.
  intros E. destruct (validated_Ok _ _ E)
    as (ps & data & sort & (-> & _) & [(dps & s & _ & _ & _ & ->) | (-> & _)]);
    eauto.
Qed.

End AnyHost.

(** X1: [createContinuationToken] returns [null] exactly when the marker is
    falsy ([null], [undefined], [0], the empty string, [false]) or the sort
    list is empty. *)
Theorem no_token_iff (host : Runtime) (data : value) (sort : list string) :
  createContinuationToken data sort = Ok VNull
  <-> truthy data = false \/ sort = [].
Proof.
  unfold createContinuationToken. split.
  - destruct (truthy data); [| now left].
    destruct sort as [|f sort]; [now right |].
    cbn [negb orb List.length Nat.eqb].
    destruct (JSON_stringify _); discriminate.
  - intros [-> | ->]; [reflexivity |].
    cbn [List.length Nat.eqb]. now rewrite orb_true_r.
Qed.

(** X2: [parseContinuationToken] returns [null], and writes nothing to the
    console, on every falsy token (the empty string, [0] and [false] as
    well as [null] and [undefined]); and it returns [null] on no other
    token. *)
Theorem no_cursor_iff (host : Runtime) (token : value) :
  (truthy token = false ->
   parseContinuationToken token
   = {| completion := Ok VNull; console_error := [] |})
  /\ (completion (parseContinuationToken token) = Ok VNull ->
      truthy token = false).
Proof.
  unfold parseContinuationToken. split.
  - now intros ->.
  - destruct (truthy token); [| reflexivity]. cbn [negb].
    destruct (try_block token) as [parsed|e] eqn:E; cbn [completion];
      [| discriminate].
    intros [= ->]. rewrite try_block_validated in E.
    apply bind_Ok_inv in E. destruct E as (js & _ & E).
    apply bind_Ok_inv in E. destruct E as (decoded & _ & E).
    destruct (validated_object _ _ E) as (ps & Hps). discriminate.
Qed.

(** X3: a token that the host decodes and parses is accepted exactly when
    the parsed value is truthy, its [data] is a non-null value of type
    ["object"] and its [sort] is an array.  Nothing else is checked: the
    array may be empty and may hold anything. *)
Theorem accepted_iff (host : Runtime) (token : value) (jsonString : string)
  (decoded : value) :
  truthy token = true ->
  Buffer_from_base64 token = Ok jsonString ->
  JSON_parse jsonString = Ok decoded ->
  (exists parsed,
     parseContinuationToken token
     = {| completion := Ok parsed; console_error := [] |})
  <-> (truthy decoded = true
       /\ exists data l,
            get decoded "data" = Ok data /\ typeof data = "object"
            /\ data <> VNull /\ get decoded "sort" = Ok (VArr l)).
Proof.
  intros Ht Hbuf Hjson. rewrite (parse_decoded _ _ _ Ht Hbuf Hjson).
  destruct (validated_cases decoded)
    as [(Htd & data & l & Hdata & Htype & Hsort & Hcase) | (E & Hno)].
  - destruct Hcase as [(-> & E) | (Hnn & r & E)]; rewrite E.
    + split; [intros (p & H); discriminate |].
      intros (_ & d & l' & Hd & _ & Hnn & _). congruence.
    + split; [| eauto]. intros _. split; [exact Htd |].
      exists data, l. auto.
  - rewrite E. split; [intros (p & H); discriminate |].
    intros (Htd & d & l & Hd & Hty & _ & Hs). elim Hno. eauto 8.
Qed.

Lemma accepted_iff_witness :
  let decoded :=
    VObj [("data", VObj [("id", VNum 7)]); ("sort", VArr [VStr "id"])] in
  (exists parsed,
     parseContinuationToken (host := Node) (VStr plain_token)
     = {| completion := Ok parsed; console_error := [] |})
  <-> (truthy decoded = true
       /\ exists data l,
            get decoded "data" = Ok data /\ typeof data = "object"
            /\ data <> VNull /\ get decoded "sort" = Ok (VArr l)).
Proof.
  intros decoded.
  eapply (accepted_iff Node (VStr plain_token) _ decoded);
    [reflexivity | vm_compute; reflexivity | vm_compute; reflexivity].
Defined.

(** X4: when the host decodes and parses the token and the call fails, the
    cause written to the console is the [Error] of line 46 or a
    [TypeError]; it is a [TypeError] exactly when the parsed value has a
    [sort] array and [null] for [data], which passes the check of line 45
    and cannot be read on line 50. *)
Theorem failure_cause (host : Runtime) (token : value) (jsonString : string)
  (decoded : value) (cause : exn) :
  truthy token = true ->
  Buffer_from_base64 token = Ok jsonString ->
  JSON_parse jsonString = Ok decoded ->
  console_error (parseContinuationToken token) = [cause] ->
  (cause = Error "Invalid structure" \/ cause = TypeError)
  /\ (cause = TypeError
      <-> truthy decoded = true /\ get decoded "data" = Ok VNull
          /\ exists l, get decoded "sort" = Ok (VArr l)).
Proof.
  intros Ht Hbuf Hjson. rewrite (parse_decoded _ _ _ Ht Hbuf Hjson).
  destruct (validated_cases decoded)
    as [(Htd & data & l & Hdata & Htype & Hsort & Hcase) | (E & Hno)].
  - destruct Hcase as [(-> & E) | (Hnn & r & E)]; rewrite E;
      cbn [console_error]; [| discriminate].
    intros [= <-]. split; [now right |]. split; eauto.
  - rewrite E. cbn [console_error]. intros [= <-]. split; [now left |].
    split; [discriminate |].
    intros (Htd & Hd & l & Hs). elim Hno. split; [exact Htd |].
    exists VNull, l. auto.
Qed.

Lemma failure_cause_witness :
  let decoded := VObj [("data", VNull); ("sort", VArr [])] in
  (TypeError = Error "Invalid structure" \/ TypeError = TypeError)
  /\ (TypeError = TypeError
      <-> truthy decoded = true /\ get decoded "data" = Ok VNull
          /\ exists l, get decoded "sort" = Ok (VArr l)).
Proof.
  intros decoded.
  eapply (failure_cause Node (VStr null_marker_token) _ decoded TypeError);
    [reflexivity | vm_compute; reflexivity | vm_compute; reflexivity
    | vm_compute; reflexivity].
Defined.

(** X5: when the host decodes and parses the token, the parsed value has
    the structure that line 45 asks for, and its data object holds no
    string under [created_at], or the empty string, then
    [parseContinuationToken] returns the parsed value itself, with nothing
    added, removed or converted, and writes nothing to the console. *)
Theorem pass_through (host : Runtime) (token : value) (jsonString : string)
  (decoded data c : value) (l : list value) :
  truthy token = true ->
  Buffer_from_base64 token = Ok jsonString ->
  JSON_parse jsonString = Ok decoded ->
  get decoded "data" = Ok data ->
  typeof data = "object" ->
  get decoded "sort" = Ok (VArr l) ->
  get data "created_at" = Ok c ->
  (forall s, c = VStr s -> s = "") ->
  parseContinuationToken token
  = {| completion := Ok decoded; console_error := [] |}.
Proof.
  intros Ht Hbuf Hjson Hdata Htype Hsort Hc Hs.
  rewrite (parse_decoded _ _ _ Ht Hbuf Hjson).
  assert (Htd : truthy decoded = true).
  { destruct decoded as [| |b|n|s| | | |]; try reflexivity;
      cbn in Hdata; try discriminate Hdata;
      injection Hdata as <-; discriminate Htype. }
  destruct (validated_cases decoded)
    as [(_ & data' & l' & Hdata' & _ & _ & Hcase) | (_ & Hno)];
    [| elim Hno; eauto 8].
  rewrite Hdata in Hdata'. injection Hdata' as <-.
  destruct Hcase as [(-> & _) | (_ & r & E)]; [discriminate Hc |].
  rewrite E. do 2 f_equal.
  destruct (validated_Ok _ _ E)
    as (ps & data0 & sort & (-> & Hown & _) & Hcase).
  destruct Hcase as [(dps & s & -> & Hc0 & Hne & _) | (-> & _)];
    [| reflexivity].
  simpl in Hdata. rewrite Hown in Hdata. injection Hdata as <-.
  simpl in Hc. rewrite Hc0 in Hc. injection Hc as <-.
  now elim Hne; apply Hs.
Qed.

Lemma pass_through_witness :
  parseContinuationToken (host := Node) (VStr plain_token)
  = {| completion :=
         Ok (VObj [("data", VObj [("id", VNum 7)]);
                   ("sort", VArr [VStr "id"])]);
       console_error := [] |}.
Proof.
  eapply (pass_through Node (VStr plain_token) _
            (VObj [("data", VObj [("id", VNum 7)]); ("sort", VArr [VStr "id"])])
            (VObj [("id", VNum 7)]) VUndefined [VStr "id"]);
    [reflexivity | vm_compute; reflexivity | vm_compute; reflexivity
    | reflexivity | reflexivity | reflexivity | reflexivity | discriminate].
Defined.

End TokenEdges.

(* ================================================================== *)
(** * The sort extraction on entries of any shape *)

Module SortEdges.

(** One step of the [map] of line 72. *)
Lemma orderByToSort_cons (item : value) (orderBy : list value) :
  orderByToSort (item :: orderBy)
  = (keys <- Object_keys item ;;
     rest <- orderByToSort orderBy ;;
     Ok (nth 0 (map VStr keys) VUndefined :: rest)).
Proof.
  unfold orderByToSort. cbn [Array_map].
  destruct (Object_keys item); reflexivity.
Qed.

Lemma Object_keys_nullish (v : value) :
  nullish v = true -> Object_keys v = Throw TypeError.
Proof. destruct v; simpl; intros E; try discriminate; reflexivity. Qed.

Lemma Object_keys_total (v : value) :
  nullish v = false -> exists keys, Object_keys v = Ok keys.
Proof. destruct v; simpl; intros E; try discriminate; eauto. Qed.

(** X6: [orderByToSort] throws a [TypeError] when one of the entries is
    [null] or [undefined]; on every other list it returns a list of the
    same length, one element for each entry. *)
Theorem order_by_null_entry (orderBy : list value) :
  (existsb nullish orderBy = true -> orderByToSort orderBy = Throw TypeError)
  /\ (existsb nullish orderBy = false ->
      exists sort,
        orderByToSort orderBy = Ok sort
        /\ List.length sort = List.length orderBy).
Proof.
  induction orderBy as [|item orderBy [IHt IHf]].
  - split; [discriminate |]. intros _. now exists [].
  - rewrite orderByToSort_cons. cbn [existsb].
    destruct (nullish item) eqn:Hn; cbn [orb].
    + split; [| discriminate]. intros _.
      now rewrite (Object_keys_nullish _ Hn).
    + destruct (Object_keys_total _ Hn) as (keys & ->). cbn [bind].
      split; intros H.
      * now rewrite (IHt H).
      * destruct (IHf H) as (sort & -> & Hlen). cbn [bind].
        eexists. split; [reflexivity |]. cbn [List.length]. now rewrite Hlen.
Qed.

(** X7: on a list of objects, [orderByToSort] keeps of each entry the first
    of its keys in enumeration order and drops the others without a word;
    an entry without a key gives [undefined] in its place, it is neither
    skipped nor refused. *)
Theorem order_by_first_key (entries : list props) :
  orderByToSort (map VObj entries)
  = Ok (map (fun ps => match ps with
                       | [] => VUndefined
                       | (k, _) :: _ => VStr k
                       end) entries).
Proof.
  induction entries as [|ps entries IH]; [reflexivity |].
  cbn [map]. rewrite orderByToSort_cons, IH. cbn [Object_keys bind].
  now destruct ps as [|[k v] ps].
Qed.

(** X8: [orderByToSort] works entry by entry: the result on two lists put
    end to end is the two results put end to end, and the call fails when
    it fails on either list. *)
Theorem order_by_append (a b : list value) :
  orderByToSort (a ++ b)
  = (sa <- orderByToSort a ;; sb <- orderByToSort b ;; Ok (sa ++ sb)%list).
Proof.
  induction a as [|item a IH].
  - cbn [app]. change (orderByToSort []) with (Ok (A := list value) []).
    cbn [bind app]. now destruct (orderByToSort b).
  - cbn [app]. rewrite !orderByToSort_cons, IH.
    destruct (Object_keys item) as [keys|e]; cbn [bind]; [| reflexivity].
    destruct (orderByToSort a) as [sa|e]; cbn [bind]; [| reflexivity].
    destruct (orderByToSort b) as [sb|e]; reflexivity.
Qed.

(** The first key in enumeration order is not always the first one
    written: a key that is an array index comes before the others. *)
Example index_key_first :
  orderByToSort [object_literal [("name", VStr "asc"); ("0", VStr "desc")]]
  = Ok [VStr "0"].
Proof. reflexivity. Qed.

End SortEdges.

(* ================================================================== *)
(** * The range-predicate builder: failures, operators, repeated fields *)

Module WhereEdges.
Import Where ObjectFacts Token TokenEdges.

Lemma get_nullish (o : value) (k : string) :
  nullish o = true -> get o k = Throw TypeError.
Proof. destruct o; simpl; intros E; try discriminate; reflexivity. Qed.

(** [buildCursorWhere] on a sort list that is not empty. *)
Lemma buildCursorWhere_cons (cursorData : value) (field : string)
  (rest : list string) :
  buildCursorWhere cursorData (field :: rest)
  = (v <- get cursorData field ;;
     op <- direction_of v ;;
     match rest with
     | [] => Ok (comparison field op v)
     | secondaryField :: _ =>
         v2 <- get cursorData secondaryField ;;
         Ok (composite field secondaryField op op v v2)
     end).
Proof.
  unfold buildCursorWhere. cbn [List.length Nat.eqb nth].
  destruct (get cursorData field) as [v|e]; cbn [bind]; [| reflexivity].
  destruct (direction_of v) as [op|e]; cbn [bind]; [| reflexivity].
  destruct rest as [|secondaryField rest]; reflexivity.
Qed.

(** X9: the only exception [buildCursorWhere] raises is a [TypeError], and
    it raises one exactly when the sort list is not empty and either the
    marker itself or the value it holds under [sort[0]] is [null] or
    [undefined].  In particular an empty sort list gives the empty filter
    whatever the marker is, and a missing secondary field raises
    nothing. *)
Theorem where_failure (cursorData : value) (sort : list string) :
  (forall e, buildCursorWhere cursorData sort = Throw e -> e = TypeError)
  /\ (buildCursorWhere cursorData sort = Throw TypeError
      <-> sort <> []
          /\ (nullish cursorData = true
              \/ exists v,
                   get cursorData (nth 0 sort "") = Ok v
                   /\ nullish v = true)).
Proof.
  destruct sort as [|field rest].
  - split; [discriminate |]. split; [discriminate | now intros [H _]].
  - rewrite buildCursorWhere_cons. cbn [nth].
    destruct (nullish cursorData) eqn:Hc.
    + rewrite (get_nullish _ _ Hc). cbn [bind].
      split; [now intros e [= <-] |].
      split; [| reflexivity]. intros _. split; [discriminate | now left].
    + destruct (get_not_nullish cursorData field Hc) as (v & Hv).
      rewrite Hv. cbn [bind]. destruct (nullish v) eqn:Hn.
      * unfold direction_of. rewrite (Object_values_nullish _ Hn). cbn [bind].
        split; [now intros e [= <-] |].
        split; [| reflexivity]. intros _. split; [discriminate |].
        right. eauto.
      * destruct (Object_values_total _ Hn) as (values & Hvals).
        rewrite (direction_of_values _ _ Hvals). cbn [bind].
        assert (E : exists w,
                   match rest with
                   | [] => Ok (comparison field (operator values) v)
                   | secondaryField :: _ =>
                       v2 <- get cursorData secondaryField ;;
                       Ok (composite field secondaryField (operator values)
                             (operator values) v v2)
                   end = Ok w).
        { destruct rest as [|g rest]; [eauto |].
          destruct (get_not_nullish cursorData g Hc) as (v2 & ->).
          cbn [bind]. eauto. }
        destruct E as (w & ->).
        split; [discriminate |]. split; [discriminate |].
        intros (_ & [H | (v' & [= <-] & H)]); congruence.
Qed.

Lemma of_unit_short (u : N) : String.length (Utf8.of_unit u) <= 3.
Proof.
  unfold Utf8.of_unit.
  destruct (N.ltb u 128); [cbn; lia |].
  destruct (N.ltb u 2048); cbn; lia.
Qed.

(** A code unit takes at most three bytes. *)
Lemma units_head_short (s : string) :
  match Utf8.units s with
  | [] => True
  | u :: _ => String.length u <= 3
  end.
Proof.
  destruct s as [|c1 s1]; [exact I |]. cbn [Utf8.units].
  destruct (N.ltb (Utf8.code c1) 192); [cbn; lia |].
  destruct (N.ltb (Utf8.code c1) 224).
  { destruct s1 as [|c2 s2]; cbn; lia. }
  destruct (N.ltb (Utf8.code c1) 240).
  { destruct s1 as [|c2 [|c3 s3]]; cbn; lia. }
  destruct s1 as [|c2 [|c3 [|c4 s4]]]; try (cbn; lia).
  apply of_unit_short.
Qed.

(** The values of a string are its code units, none of which is the
    four-letter word of line 89. *)
Lemma operator_string (s : string) :
  operator (map VStr (Utf8.units s)) = "gt".
Proof.
  unfold operator. pose proof (units_head_short s) as H.
  destruct (Utf8.units s) as [|u l]; [reflexivity |].
  cbn [map nth strict_equals_string].
  destruct (String.eqb_spec u "desc") as [-> | _]; [| reflexivity].
  cbn in H. lia.
Qed.

Lemma direction_of_scalar (v : value) :
  nullish v = false ->
  typeof v <> "object" \/ (exists t, v = VDate t) ->
  direction_of v = Ok "gt".
Proof.
  intros Hn Hs.
  destruct v as [| |b|n|s|t|name|l|ps]; try discriminate Hn;
    try reflexivity.
  - unfold direction_of. cbn [Object_values bind].
    change (if strict_equals_string
                 (nth 0 (map VStr (Utf8.units s)) VUndefined) "desc"
            then "lt" else "gt")
      with (operator (map VStr (Utf8.units s))).
    now rewrite operator_string.
  - destruct Hs as [Hs | (t & Hs)]; [now elim Hs | discriminate].
  - destruct Hs as [Hs | (t & Hs)]; [now elim Hs | discriminate].
Qed.

(** X10: when the marker holds under the primary field a number, a string,
    a boolean or a [Date] (the values the JSDoc of the function gives as
    examples) the operator is ["gt"], on the primary field and on the
    secondary one, whatever the direction of the sort was: such a value has
    no enumerable property whose value is ["desc"]. *)
Theorem scalar_value_filters_gt (cursorData : value) (field : string)
  (v : value) :
  get cursorData field = Ok v ->
  nullish v = false ->
  typeof v <> "object" \/ (exists t, v = VDate t) ->
  buildCursorWhere cursorData [field] = Ok (comparison field "gt" v)
  /\ forall secondaryField rest v2,
       get cursorData secondaryField = Ok v2 ->
       buildCursorWhere cursorData (field :: secondaryField :: rest)
       = Ok (composite field secondaryField "gt" "gt" v v2).
Proof.
  intros Hget Hn Hs. pose proof (direction_of_scalar v Hn Hs) as Hd.
  split; [| intros g rest v2 H2]; rewrite buildCursorWhere_cons, Hget;
    cbn [bind]; rewrite Hd; cbn [bind]; [reflexivity |].
  now rewrite H2.
Qed.

Lemma scalar_value_filters_gt_witness :
  let cursorData := VObj [("name", VStr "desc"); ("id", VNum 7)] in
  buildCursorWhere cursorData ["name"]
  = Ok (comparison "name" "gt" (VStr "desc"))
  /\ forall secondaryField rest v2,
       get cursorData secondaryField = Ok v2 ->
       buildCursorWhere cursorData ("name" :: secondaryField :: rest)
       = Ok (composite "name" secondaryField "gt" "gt" (VStr "desc") v2).
Proof.
  intros cursorData.
  apply (scalar_value_filters_gt cursorData "name" (VStr "desc"));
    [reflexivity | reflexivity | left; discriminate].
Defined.

(** X11: when the same field is given twice, the second alternative of the
    filter is the first one again: in the object literal of lines 107-112
    the second use of the key replaces the equality written by the first,
    so the filter no longer has a branch for a tie on the primary field. *)
Theorem repeated_field (cursorData : value) (field : string)
  (rest : list string) (v : value) (values : list value) :
  get cursorData field = Ok v ->
  Object_values v = Ok values ->
  buildCursorWhere cursorData (field :: field :: rest)
  = Ok (VObj [("OR",
               VArr [ comparison field (operator values) v;
                      comparison field (operator values) v ])]).
Proof.
  intros Hget Hvals.
  rewrite buildCursorWhere_cons, Hget. cbn [bind].
  rewrite (direction_of_values _ _ Hvals). cbn [bind].
  unfold composite, object_literal.
  cbn [fold_left define fst snd]. now rewrite String.eqb_refl.
Qed.

Lemma repeated_field_witness :
  buildCursorWhere (VObj [("id", VNum 7)]) ["id"; "id"]
  = Ok (VObj [("OR",
               VArr [ comparison "id" (operator []) (VNum 7);
                      comparison "id" (operator []) (VNum 7) ])]).
Proof.
  apply (repeated_field (VObj [("id", VNum 7)]) "id" [] (VNum 7) []);
    reflexivity.
Defined.

(** X12: decoding and filtering together, on every host: when
    [parseContinuationToken] succeeds on a token whose data object holds a
    non-empty string under [created_at], [buildCursorWhere] on the returned
    data and the sort [['created_at']] gives the filter
    [created_at > date], where [date] is the [Date] made from the string;
    the operator is never ["lt"]. *)
Theorem decoded_date_filters_gt (host : Runtime) (token : value)
  (jsonString : string) (decoded data parsed : value) (s : string) :
  truthy token = true ->
  Buffer_from_base64 token = Ok jsonString ->
  JSON_parse jsonString = Ok decoded ->
  get decoded "data" = Ok data ->
  get data "created_at" = Ok (VStr s) ->
  s <> "" ->
  completion (parseContinuationToken token) = Ok parsed ->
  exists cursorData,
    get parsed "data" = Ok cursorData
    /\ buildCursorWhere cursorData ["created_at"]
       = Ok (comparison "created_at" "gt" (VDate (Date_parse s))).
Proof.
  intros Ht Hbuf Hjson Hdata Hc Hs.
  rewrite (parse_decoded _ _ _ Ht Hbuf Hjson).
  destruct (validated decoded) as [r|e] eqn:E; cbn [completion];
    [| discriminate].
  intros [= <-].
  destruct (validated_Ok _ _ E)
    as (ps & data0 & sort & (-> & Hown & _) & Hcase).
  simpl in Hdata. rewrite Hown in Hdata. injection Hdata as ->.
  destruct Hcase as [(dps & s0 & -> & Hc0 & _ & ->) | (_ & Hempty)];
    [| now elim Hs; apply Hempty].
  simpl in Hc. rewrite Hc0 in Hc. injection Hc as ->.
  exists (VObj (define dps "created_at" (VDate (Date_parse s)))).
  split; [apply (get_set_same ps) |].
  assert (Hg : get (VObj (define dps "created_at" (VDate (Date_parse s))))
                 "created_at" = Ok (VDate (Date_parse s)))
    by apply (get_set_same dps).
  rewrite buildCursorWhere_cons, Hg. cbn [bind].
  rewrite direction_of_scalar; [reflexivity | reflexivity |].
  right. eauto.
Qed.

Lemma decoded_date_filters_gt_witness :
  exists cursorData,
    get (VObj [("data", VObj [("created_at", VDate (Some 1700000000000%Z));
                              ("id", VNum 7)]);
               ("sort", VArr [VStr "created_at"; VStr "id"])]) "data"
    = Ok cursorData
    /\ buildCursorWhere cursorData ["created_at"]
       = Ok (comparison "created_at" "gt"
               (VDate (Date_parse (Runtime := Node)
                         "2023-11-14T22:13:20.000Z"))).
Proof.
  eapply (decoded_date_filters_gt Node (VStr dated_token) _
            (VObj [("data",
                    VObj [("created_at", VStr "2023-11-14T22:13:20.000Z");
                          ("id", VNum 7)]);
                   ("sort", VArr [VStr "created_at"; VStr "id"])])
            (VObj [("created_at", VStr "2023-11-14T22:13:20.000Z");
                   ("id", VNum 7)])
            (VObj [("data", VObj [("created_at", VDate (Some 1700000000000%Z));
                                  ("id", VNum 7)]);
                   ("sort", VArr [VStr "created_at"; VStr "id"])])
            "2023-11-14T22:13:20.000Z");
    [reflexivity | vm_compute; reflexivity | vm_compute; reflexivity
    | reflexivity | reflexivity | discriminate | vm_compute; reflexivity].
Defined.

End WhereEdges.

(* ================================================================== *)
(** * Tokens on the instance *)

Module TokenText.
Import Base64.

Lemma get_existsb (s : string) :
  forall n c,
    String.get n s = Some c ->
    existsb (Ascii.eqb c) (list_ascii_of_string s) = true.
Proof.
  induction s as [|x s IH]; intros n c H; [destruct n; discriminate |].
  cbn [list_ascii_of_string existsb]. destruct n as [|n]; cbn in H.
  - injection H as ->. now rewrite Ascii.eqb_refl.
  - rewrite (IH n c H). apply orb_true_r.
Qed.

Lemma char_of_token_char (n : N) : token_char (char_of n) = true.
Proof.
  unfold token_char, char_of.
  destruct (String.get (N.to_nat n) alphabet) as [c|] eqn:E.
  - now rewrite (get_existsb _ _ _ E).
  - reflexivity.
Qed.

Lemma thirds (n : nat) : (S (S (S n)) + 2) / 3 = S ((n + 2) / 3).
Proof.
  replace (S (S (S n)) + 2) with ((n + 2) + 1 * 3) by lia.
  rewrite Nat.div_add by lia. lia.
Qed.

(** The text that [toString('base64')] gives: characters of the alphabet
    and padding, four for every three bytes. *)
Lemma encode_shape (s : string) :
  forallb token_char (list_ascii_of_string (encode s)) = true
  /\ String.length (encode s) = 4 * ((String.length s + 2) / 3).
Proof.
  assert (H : forall n s, String.length s <= n ->
                forallb token_char (list_ascii_of_string (encode s)) = true
                /\ String.length (encode s)
                   = 4 * ((String.length s + 2) / 3)).
  { clear s. induction n as [|n IH]; intros s Hlen.
    - destruct s; [split; reflexivity | simpl in Hlen; lia].
    - destruct s as [|a [|b [|c s]]].
      + split; reflexivity.
      + cbn [encode list_ascii_of_string forallb].
        rewrite !char_of_token_char. split; reflexivity.
      + cbn [encode list_ascii_of_string forallb].
        rewrite !char_of_token_char. split; reflexivity.
      + destruct (IH s) as [Hc Hl]; [simpl in Hlen; lia |].
        cbn [encode list_ascii_of_string forallb String.length].
        rewrite !char_of_token_char, Hc, Hl, thirds.
        split; [reflexivity | lia]. }
  now apply (H (String.length s)).
Qed.

End TokenText.

Module NodeTokens.
Import ObjectFacts Token JsonFacts RoundTrip TokenEdges.

Lemma stringify_object (ps : props) :
  Json.stringify (VObj ps) = Some (text (VObj ps)).
Proof. reflexivity. Qed.

Lemma text_object_not_empty (ps : props) : text (VObj ps) <> "".
Proof.
  assert (H : exists t, text (VObj ps) = String "{" t)
    by (eexists; reflexivity).
  destruct H as (t & ->). discriminate.
Qed.

(** The token of lines 22-27. *)
Lemma created_token (data : value) (sort : list string) :
  truthy data = true -> sort <> [] ->
  createContinuationToken (host := Node) data sort
  = Ok (VStr (Base64.encode (text (payload data sort)))).
Proof.
  intros Ht Hsort. unfold createContinuationToken.
  destruct sort as [|f sort]; [now elim Hsort |].
  rewrite Ht. cbn [negb orb List.length Nat.eqb].
  rewrite payload_literal.
  change (JSON_stringify (payload data (f :: sort)))
    with (Json.stringify (payload data (f :: sort))).
  unfold payload at 1. now rewrite stringify_object.
Qed.

(** Decoding the token of a text. *)
Lemma parse_token_of_text (v : value) :
  json v = true ->
  parseContinuationToken (host := Node) (VStr (Base64.encode (text v)))
  = match validated (host := Node) v with
    | Ok parsed => {| completion := Ok parsed; console_error := [] |}
    | Throw e =>
        {| completion := Throw (BadRequestError invalid_cursor_message);
           console_error := [e] |}
    end.
Proof.
  intros Hv. apply (parse_decoded _ (text v)).
  - cbn [truthy]. now rewrite (encode_not_empty _ (text_not_empty v Hv)).
  - change (Buffer_from_base64 (VStr (Base64.encode (text v))))
      with (Ok (A := string)
              (Utf8.decode (Base64.decode (Base64.encode (text v))))).
    rewrite Base64Facts.decode_encode.
    now rewrite (Utf8Facts.decode_valid _ (valid_text v Hv)).
  - exact (parse_text v Hv).
Qed.

Lemma json_payload_value (data : value) (sort : list string) :
  json data = true -> forallb Utf8.valid sort = true ->
  json (payload data sort) = true.
Proof.
  intros Hd Hsort. unfold payload.
  change (json (VObj [("data", data); ("sort", VArr (map VStr sort))]))
    with (true && (true && json data
                   && (true && forallb json (map VStr sort) && true))).
  rewrite Hd. cbn [andb]. rewrite andb_true_r.
  apply forallb_forall. intros v Hv.
  apply in_map_iff in Hv. destruct Hv as (s & <- & Hs).
  rewrite forallb_forall in Hsort. now apply Hsort.
Qed.

(** X13: every token that [createContinuationToken] returns is a non-empty
    text made of the 64 characters of the Base64 alphabet and of [=], and
    its length is a multiple of four.  The alphabet is the standard one,
    with [+] and [/]. *)
Theorem token_shape (data : value) (sort : list string) (token : string) :
  createContinuationToken (host := Node) data sort = Ok (VStr token) ->
  forallb token_char (list_ascii_of_string token) = true
  /\ token <> ""
  /\ Nat.modulo (String.length token) 4 = 0.
Proof.
  intros E.
  destruct (truthy data) eqn:Ht;
    [| unfold createContinuationToken in E; rewrite Ht in E; discriminate].
  destruct sort as [|f sort];
    [unfold createContinuationToken in E; rewrite Ht in E; discriminate |].
  rewrite created_token in E by (trivial; discriminate).
  assert (Hjs : text (payload data (f :: sort)) <> "")
    by apply text_object_not_empty.
  revert E Hjs. generalize (text (payload data (f :: sort))).
  intros jsonString [= <-] Hjs.
  destruct (TokenText.encode_shape jsonString) as [Hc Hl].
  split; [exact Hc |]. split.
  - apply String.eqb_neq. now apply encode_not_empty.
  - rewrite Hl, Nat.mul_comm. apply Nat.Div0.mod_mul.
Qed.

Lemma token_shape_witness :
  forallb token_char (list_ascii_of_string plain_token) = true
  /\ plain_token <> ""
  /\ Nat.modulo (String.length plain_token) 4 = 0.
Proof.
  apply (token_shape (VObj [("id", VNum 7)]) ["id"] plain_token).
  vm_compute. reflexivity.
Defined.

(** X14: [createContinuationToken] does not check what
    [parseContinuationToken] asks for.  For a marker that is a non-zero
    number, [true] or a non-empty string it returns a token, and
    [parseContinuationToken] refuses that token: the structure check of
    line 45 fails, and the caller gets the [BadRequestError]. *)
Theorem primitive_marker_refused (marker : value) (sort : list string) :
  truthy marker = true ->
  typeof marker <> "object" ->
  json marker = true ->
  sort <> [] ->
  forallb Utf8.valid sort = true ->
  exists token,
    createContinuationToken (host := Node) marker sort = Ok (VStr token)
    /\ parseContinuationToken (host := Node) (VStr token)
       = {| completion := Throw (BadRequestError invalid_cursor_message);
            console_error := [Error "Invalid structure"] |}.
Proof.
  intros Ht Htype Hjson Hsort Hvalid.
  exists (Base64.encode (text (payload marker sort))).
  split; [now apply created_token |].
  rewrite (parse_token_of_text _ (json_payload_value _ _ Hjson Hvalid)).
  replace (validated (host := Node) (payload marker sort))
    with (Throw (A := value) (Error "Invalid structure")); [reflexivity |].
  unfold validated, payload.
  change (get (VObj [("data", marker); ("sort", VArr (map VStr sort))])
            "data") with (Ok (A := value) marker).
  cbn [truthy negb bind].
  apply String.eqb_neq in Htype. now rewrite Htype.
Qed.

Lemma primitive_marker_refused_witness :
  exists token,
    createContinuationToken (host := Node) (VNum 5) ["id"] = Ok (VStr token)
    /\ parseContinuationToken (host := Node) (VStr token)
       = {| completion := Throw (BadRequestError invalid_cursor_message);
            console_error := [Error "Invalid structure"] |}.
Proof.
  apply (primitive_marker_refused (VNum 5) ["id"]);
    [reflexivity | discriminate | reflexivity | discriminate | reflexivity].
Defined.

(** The round trip of a marker, with the token made explicit. *)
Lemma marker_token (ps : props) (sort : list string) :
  sort <> [] ->
  createContinuationToken (host := Node) (VObj ps) sort
  = Ok (VStr (Base64.encode
                (text (payload (VObj (map written ps)) sort)))).
Proof.
  intros Hsort. rewrite created_token by trivial.
  do 3 f_equal. unfold text at 1. now rewrite text_payload.
Qed.

Lemma token_marker (ps : props) (sort : list string) :
  canonical_keys (map fst ps) = true ->
  forallb kept_field ps = true ->
  forallb Utf8.valid sort = true ->
  parseContinuationToken (host := Node)
    (VStr (Base64.encode (text (payload (VObj (map written ps)) sort))))
  = {| completion := Ok (payload (VObj ps) sort); console_error := [] |}.
Proof.
  intros Hkeys Hps Hvalid.
  rewrite (parse_token_of_text _ (json_payload ps sort Hkeys Hps Hvalid)).
  rewrite validated_payload. now rewrite (restored ps sort Hkeys Hps).
Qed.

Lemma map_VStr_injective (a b : list string) :
  map VStr a = map VStr b -> a = b.
Proof.
  revert b. induction a as [|x a IH]; intros [|y b] H; try discriminate;
    [reflexivity |].
  injection H as -> H. f_equal. now apply IH.
Qed.

(** X15: the token determines the cursor.  Two pairs of a marker and a sort
    list, of the kind that the codec gives back, that get the same token
    are the same pair. *)
Theorem token_determines_cursor (marker1 marker2 : value)
  (sort1 sort2 : list string) :
  kept_marker marker1 = true -> kept_marker marker2 = true ->
  sort1 <> [] -> sort2 <> [] ->
  forallb Utf8.valid sort1 = true -> forallb Utf8.valid sort2 = true ->
  createContinuationToken (host := Node) marker1 sort1
  = createContinuationToken (host := Node) marker2 sort2 ->
  marker1 = marker2 /\ sort1 = sort2.
Proof.
  intros H1 H2 Hs1 Hs2 Hv1 Hv2 E.
  destruct marker1 as [| | | | | | | |ps1]; try discriminate H1.
  destruct marker2 as [| | | | | | | |ps2]; try discriminate H2.
  cbn [kept_marker] in H1, H2.
  apply andb_prop in H1, H2. destruct H1 as [Hk1 Hp1], H2 as [Hk2 Hp2].
  rewrite !marker_token in E by trivial.
  pose proof (token_marker ps1 sort1 Hk1 Hp1 Hv1) as R1.
  pose proof (token_marker ps2 sort2 Hk2 Hp2 Hv2) as R2.
  revert E R1 R2.
  generalize (Base64.encode (text (payload (VObj (map written ps1)) sort1))).
  generalize (Base64.encode (text (payload (VObj (map written ps2)) sort2))).
  intros t2 t1 [= ->] R1 R2. rewrite R1 in R2.
  injection R2 as -> Hsort.
  split; [reflexivity |]. now apply map_VStr_injective.
Qed.

Lemma token_determines_cursor_witness :
  VObj [("created_at", VDate (Some 1700000000000%Z)); ("id", VNum 7)]
  = VObj [("created_at", VDate (Some 1700000000000%Z)); ("id", VNum 7)]
  /\ ["created_at"; "id"] = ["created_at"; "id"].
Proof.
  apply (token_determines_cursor
           (VObj [("created_at", VDate (Some 1700000000000%Z)); ("id", VNum 7)])
           (VObj [("created_at", VDate (Some 1700000000000%Z)); ("id", VNum 7)])
           ["created_at"; "id"] ["created_at"; "id"]);
    [vm_compute; reflexivity | vm_compute; reflexivity | discriminate
    | discriminate | reflexivity | reflexivity | reflexivity].
Defined.

(** Two markers that differ get different tokens. *)
Example distinct_tokens :
  createContinuationToken (host := Node) (VObj [("id", VNum 7)]) ["id"]
  <> createContinuationToken (host := Node) (VObj [("id", VNum 8)]) ["id"].
Proof. vm_compute. discriminate. Qed.



(** X17: a [Date] and the string that [toISOString] gives for it get the
    same token, under any field: the token of a marker is the token of the
    marker in which every valid [Date] is replaced by that string.  The
    token does not record which of the two the marker held. *)
Theorem date_token_is_string_token (ps : props) (sort : list string) :
  createContinuationToken (host := Node) (VObj ps) sort
  = createContinuationToken (host := Node) (VObj (map written ps)) sort.
Proof.
  destruct sort as [|f sort]; [reflexivity |].
  rewrite marker_token by discriminate.
  now rewrite created_token by (trivial; discriminate).
Qed.




End NodeTokens.
